(** * Project discovery and source metrics of [server.js]

    A shallow embedding of the three cooperating parts of the code-lines
    counter: the framework catalogue [FRAMEWORKS], the [ProjectScanner]
    class (bounded-depth discovery of project roots) and the [CodeCounter]
    class (line classification and aggregation), followed by the properties
    established about them.

    Conventions of the embedding.
    - A JavaScript string is a [string]; one character stands for one
      UTF-16 code unit below 256.
    - JavaScript numbers that count things are [nat].
    - The file system is a finite tree [node]; a failing [fs] call is an
      [Err] carrying the message of the exception.
    - A method that mutates [this] takes the old value of the mutated field
      and returns the new one. *)

From Stdlib Require Import Ascii String.
From stdpp Require Import gmap strings list fin_maps sorting.

Set Warnings "-register-all".

(** ** JavaScript string primitives *)

Module JsString.

(** [s.startsWith(p)]. *)
Definition startsWith (s p : string) : bool := String.prefix p s.

(** [s.includes(sub)]: [sub] occurs somewhere in [s]. *)
Fixpoint includes (s sub : string) : bool :=
  String.prefix sub s ||
  match s with
  | EmptyString => false
  | String _ s' => includes s' sub
  end.

(** [s.endsWith(p)]. *)
Definition endsWith (s p : string) : bool :=
  String.prefix (String.rev p) (String.rev s).

(** White space removed by [trim], among the code units below 256:
    TAB, LF, VT, FF, CR, SPACE and NO-BREAK SPACE. *)
Definition isWhiteSpace (c : ascii) : bool :=
  match nat_of_ascii c with
  | 9 | 10 | 11 | 12 | 13 | 32 | 160 => true
  | _ => false
  end.

Fixpoint trimStart (s : string) : string :=
  match s with
  | EmptyString => EmptyString
  | String c s' => if isWhiteSpace c then trimStart s' else s
  end.

Fixpoint trimEnd (s : string) : string :=
  match s with
  | EmptyString => EmptyString
  | String c s' =>
      match trimEnd s' with
      | EmptyString => if isWhiteSpace c then EmptyString else String c EmptyString
      | t => String c t
      end
  end.

(** [s.trim()]. *)
Definition trim (s : string) : string := trimEnd (trimStart s).

Definition LF : ascii := ascii_of_nat 10.

(** [s.split('\n')]: the pieces between line feeds; never empty. *)
Fixpoint split_LF (s : string) : list string :=
  match s with
  | EmptyString => [EmptyString]
  | String c s' =>
      if Ascii.eqb c LF then EmptyString :: split_LF s'
      else match split_LF s' with
           | l :: ls => String c l :: ls
           | [] => [String c EmptyString]
           end
  end.

(** Number of line feeds of a string. *)
Fixpoint count_LF (s : string) : nat :=
  match s with
  | EmptyString => 0
  | String c s' => (if Ascii.eqb c LF then 1 else 0) + count_LF s'
  end.

(** [toLowerCase] on one code unit below 256: A-Z and the Latin-1
    capitals U+00C0..U+00DE (without the multiplication sign U+00D7). *)
Definition lowerChar (c : ascii) : ascii :=
  let n := nat_of_ascii c in
  if ((65 <=? n) && (n <=? 90)) ||
     ((192 <=? n) && (n <=? 222) && negb (n =? 215))
  then ascii_of_nat (n + 32) else c.

Fixpoint toLowerCase (s : string) : string :=
  match s with
  | EmptyString => EmptyString
  | String c s' => String (lowerChar c) (toLowerCase s')
  end.

(** Number of occurrences of a character in a string. *)
Fixpoint count_char (c : ascii) (s : string) : nat :=
  match s with
  | EmptyString => 0
  | String a s' => (if Ascii.eqb a c then 1 else 0) + count_char c s'
  end.

(** [list.includes(x)] on an array of strings. *)
Definition Array_includes (l : list string) (x : string) : bool :=
  existsb (String.eqb x) l.

End JsString.

(** ** The part of Node's [path] module the program calls (POSIX flavour)

    The paths of the program are built by [path.join] from an absolute
    start directory and directory-entry names, so they are normalised and
    end in no separator. *)

Module Path.
Import JsString.

Definition sep : ascii := "/"%char.
Definition dot : ascii := "."%char.

(** The part of [p] after its last separator. *)
Fixpoint basename_from (acc p : string) : string :=
  match p with
  | EmptyString => String.rev acc
  | String c p' =>
      if Ascii.eqb c sep then basename_from EmptyString p'
      else basename_from (String c acc) p'
  end.

(** [path.basename(p)] for a path [p] that does not end in a separator
    (the path of the root apart, whose base name is empty). *)
Definition basename (p : string) : string := basename_from EmptyString p.

(** The suffix of [s] that starts at its last dot, if [s] has a dot. *)
Fixpoint from_last_dot (s : string) : option string :=
  match s with
  | EmptyString => None
  | String c s' =>
      match from_last_dot s' with
      | Some e => Some e
      | None => if Ascii.eqb c dot then Some s else None
      end
  end.

(** [path.extname(p)]: from the last dot of the base name to its end;
    empty when there is no dot, when the only dot is the first character
    of the base name, and for the base name [..]. *)
Definition extname (p : string) : string :=
  match basename p with
  | EmptyString => EmptyString
  | String c rest =>
      if String.eqb (String c rest) ".." then EmptyString
      else match from_last_dot rest with
           | Some e => e
           | None => EmptyString
           end
  end.

(** [path.join(dir, name)] for a normalised absolute [dir] and an entry
    name. *)
Definition join (dir name : string) : string :=
  if String.eqb dir "/" then "/" +:+ name else dir +:+ "/" +:+ name.

(** [path.relative(base, path.join(dir, name))] where [rel] is
    [path.relative(base, dir)]: the segments below [base], separated by
    [/], with no leading separator. *)
Definition relative_join (rel name : string) : string :=
  if String.eqb rel "" then name else rel +:+ "/" +:+ name.

End Path.

(** ** [CodeCounter.countLines] *)

Module LineClassifier.
Import JsString.

(** The object [countLines] returns. *)
Record LineStats := mkLineStats {
  total : nat;
  code : nat;
  comments : nat;
  blank : nat
}.

(** The variables the loop of [countLines] updates. *)
Record loop_state := mkLoop {
  codeLines : nat;
  commentLines : nat;
  blankLines : nat;
  inMultiLineComment : bool
}.

Definition isJsLike (ext : string) : bool :=
  Array_includes [".js"; ".jsx"; ".ts"; ".tsx"; ".vue"] ext.

Definition isCssLike (ext : string) : bool :=
  Array_includes [".css"; ".scss"; ".sass"; ".less"] ext.

(** One iteration of [for (let line of lines)]. *)
Definition line_step (ext : string) (st : loop_state) (line : string) : loop_state :=
  let trimmedLine := trim line in
  let '(mkLoop c m b multi) := st in
  if String.eqb trimmedLine "" then mkLoop c m (S b) multi
  else if (isJsLike ext || isCssLike ext) && multi then
    mkLoop c (S m) b (if includes trimmedLine "*/" then false else multi)
  else if (isJsLike ext || isCssLike ext) && startsWith trimmedLine "/*" then
    mkLoop c (S m) b (if negb (includes trimmedLine "*/") then true else multi)
  else if (isJsLike ext && startsWith trimmedLine "//") ||
          (isCssLike ext && startsWith trimmedLine "/*") ||
          (Array_includes [".html"] ext && startsWith trimmedLine "<!--") then
    mkLoop c (S m) b multi
  else mkLoop (S c) m b multi.

Definition loop_init : loop_state := mkLoop 0 0 0 false.

Definition countLines (content filePath : string) : LineStats :=
  let lines := split_LF content in
  let ext := toLowerCase (Path.extname filePath) in
  let st := fold_left (line_step ext) lines loop_init in
  mkLineStats (length lines) (codeLines st) (commentLines st) (blankLines st).

(** The lines counted so far by the loop. *)
Definition counted (st : loop_state) : nat :=
  codeLines st + commentLines st + blankLines st.

End LineClassifier.

(** ** The file system seen by the two walks *)

(** The outcome of an [fs] call: a value, or the message of the exception
    it throws. *)
Inductive io (A : Type) : Type :=
| Ok (a : A)
| Err (message : string).
Arguments Ok {A} a.
Arguments Err {A} message.

(** What a path leads to. [File] carries what [fs.readFile] gives for it,
    [Dir] what [fs.readdir] gives: the entries in listing order, each with
    its name. [Special] is an entry that is neither a regular file nor a
    directory (a symbolic link, a socket): [isDirectory()] and [isFile()]
    are both false for it. *)
Inductive node : Type :=
| File (content : io string)
| Dir (entries : io (list (string * node)))
| Special.

Definition isDirectory (n : node) : bool :=
  match n with Dir _ => true | _ => false end.

Definition isFile (n : node) : bool :=
  match n with File _ => true | _ => false end.

(** The node an entry name leads to, among the entries of a directory. *)
Fixpoint lookup_entry (name : string) (entries : list (string * node)) : option node :=
  match entries with
  | [] => None
  | (n, child) :: rest =>
      if String.eqb n name then Some child else lookup_entry name rest
  end.

(** ** The constants of the program *)

Module FrameworkCatalog.
Import JsString.

(** The regular expressions of the catalogue all have the shape
    [/\/(a|b|c)\//]: a separator, one of the alternatives, a
    separator. A pattern is kept as its list of alternatives. *)
Definition RegExp : Type := list string.

(** [pattern.test(s)]. *)
Definition RegExp_test (pattern : RegExp) (s : string) : bool :=
  existsb (fun alt => includes s ("/" +:+ alt +:+ "/")) pattern.

(** One value of [FRAMEWORKS] (the icon, used by the output only, is left
    out). [categories] keeps the order of the object literal. *)
Record Framework := mkFramework {
  name : string;
  patterns : list string;
  packageIndicators : list string;
  directories : list string;
  categories : list (string * RegExp)
}.

Definition nextjs : Framework := {|
  name := "Next.js";
  patterns := ["next.config.js"; "next.config.ts"; "next.config.mjs"];
  packageIndicators := ["next"];
  directories := ["pages"; "app"];
  categories := [
    ("pages", ["pages"; "app"]);
    ("components", ["components"; "ui"]);
    ("api", ["api"]);
    ("hooks", ["hooks"; "composables"]);
    ("utils", ["utils"; "lib"; "helpers"]);
    ("styles", ["styles"; "css"]);
    ("types", ["types"; "interfaces"]);
    ("config", ["config"; "constants"]);
    ("public", ["public"]) ]
|}.

Definition nuxtjs : Framework := {|
  name := "Nuxt.js";
  patterns := ["nuxt.config.js"; "nuxt.config.ts"];
  packageIndicators := ["nuxt"; "@nuxt/"];
  directories := ["pages"; "components"; "layouts"];
  categories := [
    ("pages", ["pages"]);
    ("components", ["components"]);
    ("layouts", ["layouts"]);
    ("plugins", ["plugins"]);
    ("middleware", ["middleware"]);
    ("composables", ["composables"]);
    ("utils", ["utils"; "lib"]);
    ("assets", ["assets"]);
    ("static", ["static"; "public"]);
    ("server", ["server"]) ]
|}.

Definition vue : Framework := {|
  name := "Vue.js";
  patterns := ["vue.config.js"; "vite.config.js"; "vite.config.ts"];
  packageIndicators := ["vue"; "@vue/"];
  directories := ["src"];
  categories := [
    ("components", ["components"; "views"]);
    ("router", ["router"]);
    ("store", ["store"; "stores"]);
    ("composables", ["composables"; "hooks"]);
    ("utils", ["utils"; "lib"; "helpers"]);
    ("assets", ["assets"]);
    ("styles", ["styles"; "css"]);
    ("types", ["types"; "interfaces"]) ]
|}.

Definition react : Framework := {|
  name := "React";
  patterns := ["src/App.js"; "src/App.tsx"; "src/index.js"; "src/index.tsx"];
  packageIndicators := ["react"];
  directories := ["src"];
  categories := [
    ("components", ["components"; "ui"]);
    ("pages", ["pages"; "views"; "screens"]);
    ("hooks", ["hooks"]);
    ("context", ["context"; "providers"]);
    ("utils", ["utils"; "lib"; "helpers"]);
    ("assets", ["assets"]);
    ("styles", ["styles"; "css"]);
    ("types", ["types"; "interfaces"]);
    ("services", ["services"; "api"]) ]
|}.

(** [Object.entries(FRAMEWORKS)]: the values in insertion order. *)
Definition FRAMEWORKS : list Framework := [nextjs; nuxtjs; vue; react].

Definition CODE_EXTENSIONS : list string :=
  [".js"; ".jsx"; ".ts"; ".tsx"; ".vue"; ".svelte";
   ".html"; ".css"; ".scss"; ".sass"; ".less";
   ".json"; ".graphql"; ".md"; ".mdx"].

Definition IGNORE_DIRS : list string :=
  ["node_modules"; ".git"; ".next"; ".nuxt"; "dist"; "build";
   ".output"; "coverage"; ".nyc_output"; ".vscode"; ".idea";
   "__pycache__"; ".pytest_cache"; "logs"; ".cache";
   "public"; "static"; "assets"].

Definition IGNORE_FILES : list string :=
  ["package-lock.json"; "yarn.lock"; "pnpm-lock.yaml";
   ".gitignore"; ".env"; ".env.local"; ".env.example";
   "next.config.js"; "nuxt.config.js"; "vue.config.js";
   "tailwind.config.js"; "postcss.config.js"; "vite.config.js"].

End FrameworkCatalog.

(** ** [class ProjectScanner] *)

Module ProjectScanner.
Import JsString FrameworkCatalog.

(** What the program reads of a parsed [package.json]: the keys of its
    [dependencies] and of its [devDependencies]. *)
Record PackageJson := mkPackageJson {
  dependencies : list string;
  devDependencies : list string
}.

(** An element of [this.projects]. *)
Record Project := mkProject {
  project_name : string;
  project_path : string;
  project_framework : Framework
}.

(** The test of the loop of [scanDirectory] on one entry. *)
Definition descends (entry_name : string) (child : node) : bool :=
  isDirectory child
  && negb (Array_includes IGNORE_DIRS entry_name)
  && negb (startsWith entry_name ".").

(** [reaches start startDir d dir dirPath]: [dir], at [dirPath], is met
    [d] levels below the start directory, going down only through
    listed entries that are directories, are not in the ignore set and
    do not start with a dot. *)
Inductive reaches (start : node) (startDir : string) : nat -> node -> string -> Prop :=
| reaches_start : reaches start startDir 0 start startDir
| reaches_entry d entries entry_name child dirPath :
    reaches start startDir d (Dir (Ok entries)) dirPath ->
    (entry_name, child) ∈ entries ->
    descends entry_name child = true ->
    reaches start startDir (S d) child (Path.join dirPath entry_name).

Section WithJson.

(** [JSON.parse], as far as the program looks at its result: [None]
    when it throws or yields [null]. *)
Variable JSON_parse : string -> option PackageJson.

(** The inner [try] of [detectFramework]: [package.json] is read when the
    listing has it as a file that can be read; an entry that is neither a
    file nor a directory is taken as one that cannot be read. *)
Definition readPackageJson (entries : list (string * node)) : option PackageJson :=
  match lookup_entry "package.json" entries with
  | Some (File (Ok packageContent)) => JSON_parse packageContent
  | _ => None
  end.

Definition hasConfigFile (framework : Framework) (files : list string) : bool :=
  existsb (fun pattern => Array_includes files (Path.basename pattern))
          (patterns framework).

(** The keys of [{...dependencies, ...devDependencies}]; a key present
    in both is listed twice here, which [some] does not see. *)
Definition hasPackageDep (framework : Framework) (packageJson : option PackageJson) : bool :=
  match packageJson with
  | Some pj =>
      let allDeps := dependencies pj ++ devDependencies pj in
      existsb (fun indicator => existsb (fun dep => includes dep indicator) allDeps)
              (packageIndicators framework)
  | None => false
  end.

Definition hasTypicalDirs (framework : Framework) (files : list string) : bool :=
  existsb (fun dir => Array_includes files dir) (directories framework).

(** [detectFramework(dirPath)], on what [dirPath] leads to. *)
Definition detectFramework (dir : node) : option Framework :=
  match dir with
  | Dir (Ok entries) =>
      let files := map fst entries in
      let packageJson := readPackageJson entries in
      find (fun framework =>
              hasConfigFile framework files ||
              hasPackageDep framework packageJson ||
              hasTypicalDirs framework files)
           FRAMEWORKS
  | _ => None
  end.

(** [scanDirectory(dirPath, currentDepth, maxDepth)]; [projects] is
    [this.projects] before the call, the result is [this.projects]
    after it. *)
Fixpoint scanDirectory (dir : node) (dirPath : string)
    (currentDepth maxDepth : nat) (projects : list Project) : list Project :=
  if maxDepth <=? currentDepth then projects
  else
    match dir with
    | Dir (Ok entries) =>
        let projects1 :=
          match detectFramework dir with
          | Some framework =>
              projects ++ [mkProject (Path.basename dirPath) dirPath framework]
          | None => projects
          end in
        fold_left
          (fun ps entry =>
             let '(entry_name, child) := entry in
             if descends entry_name child
             then scanDirectory child (Path.join dirPath entry_name)
                                (S currentDepth) maxDepth ps
             else ps)
          entries projects1
    | _ => projects
    end.

(** What a matching directory adds to [this.projects]. *)
Definition record_project (dir : node) (dirPath : string)
    (projects : list Project) : list Project :=
  match detectFramework dir with
  | Some framework =>
      projects ++ [mkProject (Path.basename dirPath) dirPath framework]
  | None => projects
  end.

(** One iteration of the loop of [scanDirectory]. *)
Definition scan_entry (dirPath : string) (currentDepth maxDepth : nat)
    (ps : list Project) (entry : string * node) : list Project :=
  let '(entry_name, child) := entry in
  if descends entry_name child
  then scanDirectory child (Path.join dirPath entry_name)
                     (S currentDepth) maxDepth ps
  else ps.

(** [scanForProjects(startDir, maxDepth)]: what it returns, which is
    also the new [this.projects]. *)
Definition scanForProjects (start : node) (startDir : string)
    (maxDepth : nat) (projects : list Project) : list Project :=
  scanDirectory start startDir 0 maxDepth projects.

(** A project the scan is to find: the record of a matching directory
    reached less than [maxDepth] levels below the start directory. *)
Definition found (start : node) (startDir : string) (maxDepth : nat)
    (p : Project) : Prop :=
  exists d dir dirPath fw,
    reaches start startDir d dir dirPath /\ d < maxDepth /\
    detectFramework dir = Some fw /\
    p = mkProject (Path.basename dirPath) dirPath fw.

End WithJson.

Definition default_maxDepth : nat := 3.

(** Two trees for the examples: a Next.js project, one and three levels
    below the start directory. *)
Definition deep_project : node :=
  Dir (Ok [("next.config.js", File (Ok "module.exports = {}"))]).

Definition deep_tree : node :=
  Dir (Ok [("a", Dir (Ok [("b", Dir (Ok [("web", deep_project)]))]))]).

Definition shallow_tree : node := Dir (Ok [("a", deep_project)]).

End ProjectScanner.

(** ** [class CodeCounter] *)

(** A value of [stats.fileTypes] or of [stats.categories]. *)
Module Bucket.
Record t := mk {
  count : nat;
  lines : nat;
  codeLines : nat
}.
Definition empty : t := mk 0 0 0.
End Bucket.

(** An element of [stats.largestFiles]. *)
Module FileEntry.
Record t := mk {
  path : string;
  lines : nat;
  codeLines : nat;
  size : nat;
  type : string
}.
End FileEntry.

Module CodeCounter.
Import JsString FrameworkCatalog LineClassifier.

(** [this.stats]. The two objects used as maps are finite maps: their
    keys (extensions, which are empty or start with a dot, category names
    of the catalogue, [other]) never name a property of
    [Object.prototype]. *)
Record Stats := mkStats {
  totalFiles : nat;
  totalLines : nat;
  totalCodeLines : nat;
  totalBlankLines : nat;
  totalCommentLines : nat;
  fileTypes : gmap string Bucket.t;
  categories : gmap string Bucket.t;
  largestFiles : list FileEntry.t;
  errors : list string
}.

(** The [stats] the constructor builds. *)
Definition new_stats : Stats := mkStats 0 0 0 0 0 ∅ ∅ [] [].

Definition isCodeFile (filePath : string) : bool :=
  let ext := toLowerCase (Path.extname filePath) in
  Array_includes CODE_EXTENSIONS ext.

Definition shouldIgnoreDir (dirName : string) : bool :=
  Array_includes IGNORE_DIRS dirName || startsWith dirName ".".

Definition shouldIgnoreFile (fileName : string) : bool :=
  Array_includes IGNORE_FILES fileName || startsWith fileName "." ||
  endsWith fileName ".min.js".

(** [categorizeFile(filePath)] of a counter built with [framework]. *)
Definition categorizeFile (framework : option Framework) (filePath : string) : string :=
  match framework with
  | None => "other"
  | Some fw =>
      match find (fun entry => RegExp_test (snd entry) filePath)
                 (FrameworkCatalog.categories fw) with
      | Some (category, _) => category
      | None => "other"
      end
  end.

(** The bucket under [key], created on first use, with one more file. *)
Definition add_to_bucket (key : string) (lineStats : LineStats)
    (buckets : gmap string Bucket.t) : gmap string Bucket.t :=
  let b := default Bucket.empty (buckets !! key) in
  <[key := Bucket.mk (S (Bucket.count b))
                     (Bucket.lines b + total lineStats)
                     (Bucket.codeLines b + code lineStats)]> buckets.

(** [list.sort((a, b) => b.lines - a.lines)]: the sort of the language
    is stable, so an entry goes before the entries it precedes in the
    input unless they have strictly more lines. *)
Fixpoint sort_insert (x : FileEntry.t) (l : list FileEntry.t) : list FileEntry.t :=
  match l with
  | [] => [x]
  | y :: l' =>
      if FileEntry.lines x <? FileEntry.lines y then y :: sort_insert x l'
      else x :: y :: l'
  end.

Definition sort_by_lines_desc (l : list FileEntry.t) : list FileEntry.t :=
  foldr sort_insert [] l.

Definition push_error (stats : Stats) (message : string) : Stats :=
  mkStats (totalFiles stats) (totalLines stats) (totalCodeLines stats)
          (totalBlankLines stats) (totalCommentLines stats)
          (fileTypes stats) (categories stats) (largestFiles stats)
          (errors stats ++ [message]).

(** [processFile(filePath, relativePath)]; [file] is what
    [fs.readFile(filePath, 'utf-8')] gives. *)
Definition processFile (framework : option Framework)
    (filePath relativePath : string) (file : io string) (stats : Stats) : Stats :=
  match file with
  | Ok content =>
      let lineStats := countLines content filePath in
      let ext := toLowerCase (Path.extname filePath) in
      let category := categorizeFile framework relativePath in
      let fileSize := String.length content in
      let pushed :=
        largestFiles stats ++
        [FileEntry.mk relativePath (total lineStats) (code lineStats) fileSize ext] in
      mkStats (S (totalFiles stats))
              (totalLines stats + total lineStats)
              (totalCodeLines stats + code lineStats)
              (totalBlankLines stats + blank lineStats)
              (totalCommentLines stats + comments lineStats)
              (add_to_bucket ext lineStats (fileTypes stats))
              (add_to_bucket category lineStats (categories stats))
              (if 5 <? length pushed then take 5 (sort_by_lines_desc pushed)
               else pushed)
              (errors stats)
  | Err message =>
      push_error stats ("Error processing file " +:+ filePath +:+ ": " +:+ message)
  end.

(** The message of the exception [fs.readdir] throws on a path that is
    no directory. *)
Definition ENOTDIR (dirPath : string) : string :=
  "ENOTDIR: not a directory, scandir '" +:+ dirPath +:+ "'".

(** [scanDirectory(dirPath, basePath, spinner)] with a spinner, as [main]
    calls it. [rel] is [path.relative(basePath, dirPath)]. *)
Fixpoint scanDirectory (framework : option Framework) (dir : node)
    (dirPath rel : string) (stats : Stats) : Stats :=
  match dir with
  | Dir (Ok entries) =>
      fold_left
        (fun st entry =>
           let '(entry_name, child) := entry in
           let fullPath := Path.join dirPath entry_name in
           let relativePath := Path.relative_join rel entry_name in
           match child with
           | Dir _ =>
               if negb (shouldIgnoreDir entry_name)
               then scanDirectory framework child fullPath relativePath st
               else st
           | File file =>
               if negb (shouldIgnoreFile entry_name) && isCodeFile fullPath
               then processFile framework fullPath relativePath file st
               else st
           | Special => st
           end)
        entries stats
  | Dir (Err message) =>
      push_error stats ("Error scanning directory " +:+ dirPath +:+ ": " +:+ message)
  | _ =>
      push_error stats ("Error scanning directory " +:+ dirPath +:+ ": " +:+ ENOTDIR dirPath)
  end.

(** One iteration of the loop of [scanDirectory]. *)
Definition scan_entry (framework : option Framework) (dirPath rel : string)
    (st : Stats) (entry : string * node) : Stats :=
  let '(entry_name, child) := entry in
  let fullPath := Path.join dirPath entry_name in
  let relativePath := Path.relative_join rel entry_name in
  match child with
  | Dir _ =>
      if negb (shouldIgnoreDir entry_name)
      then scanDirectory framework child fullPath relativePath st
      else st
  | File file =>
      if negb (shouldIgnoreFile entry_name) && isCodeFile fullPath
      then processFile framework fullPath relativePath file st
      else st
  | Special => st
  end.

(** [report.summary] without [codeRatio], a rendering of
    [totalCodeLines / totalLines]. *)
Record Summary := mkSummary {
  s_totalFiles : nat;
  s_totalLines : nat;
  s_totalCodeLines : nat;
  s_totalBlankLines : nat;
  s_totalCommentLines : nat
}.

Record Report := mkReport {
  summary : Summary;
  r_fileTypes : gmap string Bucket.t;
  r_categories : gmap string Bucket.t;
  r_largestFiles : list FileEntry.t;
  r_errors : list string
}.

(** [this.stats] after [generateReport()], which sorts the array of
    largest files in place. *)
Definition stats_after_report (stats : Stats) : Stats :=
  mkStats (totalFiles stats) (totalLines stats) (totalCodeLines stats)
          (totalBlankLines stats) (totalCommentLines stats)
          (fileTypes stats) (categories stats)
          (sort_by_lines_desc (largestFiles stats))
          (errors stats).

(** What [generateReport()] returns. *)
Definition generateReport (stats : Stats) : Report :=
  let sorted := stats_after_report stats in
  mkReport (mkSummary (totalFiles sorted) (totalLines sorted)
                      (totalCodeLines sorted) (totalBlankLines sorted)
                      (totalCommentLines sorted))
           (fileTypes sorted) (categories sorted)
           (largestFiles sorted) (errors sorted).

(** The scan of [main]: a walk from the project directory, then the
    report. [stats] is the state of the counter before the walk. *)
Definition scan (framework : option Framework) (project : node)
    (projectPath : string) (stats : Stats) : Report :=
  generateReport (scanDirectory framework project projectPath "" stats).

(** *** Observations on the state of a counter *)

(** The totals of a counter, as a summary. *)
Definition summary_of (stats : Stats) : Summary :=
  mkSummary (totalFiles stats) (totalLines stats) (totalCodeLines stats)
            (totalBlankLines stats) (totalCommentLines stats).

Definition summary_add (a b : Summary) : Summary :=
  mkSummary (s_totalFiles a + s_totalFiles b)
            (s_totalLines a + s_totalLines b)
            (s_totalCodeLines a + s_totalCodeLines b)
            (s_totalBlankLines a + s_totalBlankLines b)
            (s_totalCommentLines a + s_totalCommentLines b).

(** Everything but the error list. *)
Definition aggregates (stats : Stats) : Stats :=
  mkStats (totalFiles stats) (totalLines stats) (totalCodeLines stats)
          (totalBlankLines stats) (totalCommentLines stats)
          (fileTypes stats) (categories stats) (largestFiles stats) [].



(** The order the largest files are reported in. *)
Definition more_lines (a b : FileEntry.t) : Prop :=
  FileEntry.lines b <= FileEntry.lines a.

(** The files a walk meets, in order, with what reading them gives. *)
Definition process_all (framework : option Framework)
    (files : list (string * string * io string)) (stats : Stats) : Stats :=
  fold_left (fun st f => processFile framework (fst (fst f)) (snd (fst f)) (snd f) st)
            files stats.


(** Two runs that differ by one more error message in the first. *)
Definition one_more_error (e1 : list string) (line : string) (a b : Stats) : Prop :=
  aggregates a = aggregates b /\
  exists e2, errors a = e1 ++ line :: e2 /\ errors b = e1 ++ e2.

(** A project with one file, for the examples. *)
Definition one_file_project : node :=
  Dir (Ok [("index.js", File (Ok "let x = 1;"))]).

End CodeCounter.

(** ** Observations on line counts *)

Module LineCounts.
Import JsString LineClassifier.

(** A line that [countLines] takes for blank. *)
Definition is_blank (line : string) : bool := String.eqb (trim line) "".

(** The number of lines of a list that are blank, and that are not. *)
Definition blank_count (lines : list string) : nat :=
  length (filter (fun l => is_blank l = true) lines).

Definition nonblank_count (lines : list string) : nat :=
  length (filter (fun l => is_blank l = false) lines).

(** Field by field sum of two results of [countLines]. *)
Definition LineStats_add (a b : LineStats) : LineStats :=
  mkLineStats (total a + total b) (code a + code b)
              (comments a + comments b) (blank a + blank b).

(** The extension [countLines] reads off a path. *)
Definition ext_of (filePath : string) : string :=
  toLowerCase (Path.extname filePath).

(** The extension takes part in no comment rule of [countLines]. *)
Definition plain_ext (ext : string) : bool :=
  negb (isJsLike ext) && negb (isCssLike ext) && negb (Array_includes [".html"] ext).

End LineCounts.

(** ** Observations on a walk *)

Module Walk.
Import JsString FrameworkCatalog LineClassifier CodeCounter.

(** A string without a path separator, as every directory-entry name is. *)
Definition no_sep (s : string) : Prop := count_char Path.sep s = 0.

(** Every entry name of a tree, at every level, satisfies [N]. *)
Fixpoint names_ok (N : string -> Prop) (n : node) : Prop :=
  match n with
  | Dir (Ok entries) =>
      (fix all (es : list (string * node)) : Prop :=
         match es with
         | [] => True
         | (entry_name, child) :: es' =>
             N entry_name /\ names_ok N child /\ all es'
         end) entries
  | _ => True
  end.

(** The same on a list of entries. *)
Definition entries_ok (N : string -> Prop) (entries : list (string * node)) : Prop :=
  Forall (fun entry => N (fst entry) /\ names_ok N (snd entry)) entries.

(** Path segments joined by separators, with no separator at either end:
    the shape of what [path.relative] returns. *)
Fixpoint join_segs (segs : list string) : string :=
  match segs with
  | [] => ""
  | [s] => s
  | s :: rest => s +:+ "/" +:+ join_segs rest
  end.

(** The same with a separator before every segment and one at the end. *)
Fixpoint slashed (segs : list string) : string :=
  match segs with
  | [] => "/"
  | s :: rest => "/" +:+ s +:+ slashed rest
  end.

(** The sum of a quantity over all buckets. *)
Definition bucket_sum (f : Bucket.t -> nat) (buckets : gmap string Bucket.t) : nat :=
  map_fold (fun _ b acc => f b + acc) 0 buckets.

(** What [processFile] pushes on the list of largest files for a file that
    is read. *)
Definition entry_of (filePath relativePath content : string) : FileEntry.t :=
  let lineStats := countLines content filePath in
  FileEntry.mk relativePath (total lineStats) (code lineStats)
               (String.length content) (toLowerCase (Path.extname filePath)).

(** The entries of the files of a list that are read, in order. *)
Fixpoint entries_of (files : list (string * string * io string)) : list FileEntry.t :=
  match files with
  | [] => []
  | (filePath, relativePath, Ok content) :: rest =>
      entry_of filePath relativePath content :: entries_of rest
  | (_, _, Err _) :: rest => entries_of rest
  end.

(** The files a walk hands to [processFile], in the order of the walk:
    each with its path, its path relative to the project and what reading
    it gives. *)
Fixpoint walk_files (dir : node) (dirPath rel : string)
    : list (string * string * io string) :=
  match dir with
  | Dir (Ok entries) =>
      flat_map
        (fun entry =>
           let '(entry_name, child) := entry in
           let fullPath := Path.join dirPath entry_name in
           let relativePath := Path.relative_join rel entry_name in
           match child with
           | Dir _ =>
               if negb (shouldIgnoreDir entry_name)
               then walk_files child fullPath relativePath
               else []
           | File file =>
               if negb (shouldIgnoreFile entry_name) && isCodeFile fullPath
               then [(fullPath, relativePath, file)]
               else []
           | Special => []
           end)
        entries
  | _ => []
  end.

(** The part of [walk_files] that comes from one entry. *)
Definition entry_files (dirPath rel : string) (entry : string * node)
    : list (string * string * io string) :=
  let '(entry_name, child) := entry in
  let fullPath := Path.join dirPath entry_name in
  let relativePath := Path.relative_join rel entry_name in
  match child with
  | Dir _ =>
      if negb (shouldIgnoreDir entry_name)
      then walk_files child fullPath relativePath
      else []
  | File file =>
      if negb (shouldIgnoreFile entry_name) && isCodeFile fullPath
      then [(fullPath, relativePath, file)]
      else []
  | Special => []
  end.

(** The list of largest files keeps the longest: what is left out is no
    longer than what is kept, and nothing is left out while there is
    room. *)
Definition keeps_longest (all kept : list FileEntry.t) : Prop :=
  exists dropped,
    all ≡ₚ kept ++ dropped /\
    (forall d k, d ∈ dropped -> k ∈ kept -> FileEntry.lines d <= FileEntry.lines k) /\
    (dropped <> [] -> length kept = 5).

(** The names of the categories of a framework, and [other]. *)
Definition category_names (framework : option Framework) : list string :=
  "other" ::
  match framework with
  | Some fw => map fst (FrameworkCatalog.categories fw)
  | None => []
  end.

(** The summary with every total at 0. *)
Definition summary_zero : Summary := mkSummary 0 0 0 0 0.

(** What one entry of a directory adds to the totals of a fresh counter. *)
Definition entry_summary (framework : option Framework) (dirPath rel : string)
    (entry : string * node) : Summary :=
  summary_of (scan_entry framework dirPath rel new_stats entry).

(** What holds of every bucket of a report. *)
Definition bucket_bounds (b : Bucket.t) : Prop :=
  1 <= Bucket.count b /\ Bucket.count b <= Bucket.lines b /\
  Bucket.codeLines b <= Bucket.lines b.

(** The relative paths of the directories a walk enters: separated
    segments, none with a separator inside, none ignored. *)
Definition walked_rel (rel : string) : Prop :=
  exists segs,
    rel = join_segs segs /\
    Forall (fun s => no_sep s /\ shouldIgnoreDir s = false) segs.

(** The categories of the catalogue whose patterns name ignored
    directories only. *)
Definition ignored_categories : list string := ["public"; "static"; "assets"].

(** Every alternative of the pattern of such a category, in every
    framework of the catalogue, is the name of an ignored directory. *)
Definition ignored_categories_check : bool :=
  forallb
    (fun fw =>
       forallb
         (fun entry =>
            negb (Array_includes ignored_categories (fst entry)) ||
            forallb (fun alt => shouldIgnoreDir alt &&
                                (count_char Path.sep alt =? 0))
                    (snd entry))
         (FrameworkCatalog.categories fw))
    FRAMEWORKS.

(** No category of the catalogue is named [other]. *)
Definition other_is_free_check : bool :=
  forallb
    (fun fw =>
       forallb (fun entry => negb (String.eqb (fst entry) "other"))
               (FrameworkCatalog.categories fw))
    FRAMEWORKS.

(** A project with a [public] directory and a nested [assets] directory,
    for the examples. *)
Definition project_with_ignored_dirs : node :=
  Dir (Ok [("public", Dir (Ok [("app.js", File (Ok "let a = 1;"))]));
           ("src", Dir (Ok [("assets", Dir (Ok [("logo.js", File (Ok "x"))]));
                            ("lib", Dir (Ok [("util.js", File (Ok "y"))]))]))]).

End Walk.

(** ** Observations on project discovery *)

Module Discovery.
Import JsString FrameworkCatalog ProjectScanner.

(** The test both walks apply to the name of a directory:
    [IGNORE_DIRS.has(name) || name.startsWith('.')]. *)
Definition ignored_name (entry_name : string) : bool :=
  Array_includes IGNORE_DIRS entry_name || startsWith entry_name ".".

(** No name that detection looks for in a listing is an ignored name:
    neither [package.json], nor the base name of a configuration file,
    nor a typical directory of a framework of the catalogue. *)
Definition detection_names_check : bool :=
  negb (ignored_name "package.json") &&
  forallb
    (fun fw =>
       forallb (fun pattern => negb (ignored_name (Path.basename pattern)))
               (patterns fw) &&
       forallb (fun dir => negb (ignored_name dir)) (directories fw))
    FRAMEWORKS.

(** A name as [fs.readdir] gives it: not empty, neither [.] nor [..], and
    without a separator. *)
Definition entry_name_ok (entry_name : string) : Prop :=
  entry_name <> "" /\ entry_name <> "." /\ entry_name <> ".." /\
  Walk.no_sep entry_name.

(** A normalised absolute path of a directory: the root, or a separator
    followed by such names with one separator between them; no separator
    at the end, no empty segment, no [.] and no [..]. For such a directory
    and such a name [path.join] only puts a separator between the two (or
    none after the root), as [Path.join] does. *)
Definition normalised_dir (dirPath : string) : Prop :=
  dirPath = "/" \/
  exists segs,
    segs <> [] /\ Forall entry_name_ok segs /\
    dirPath = "/" +:+ Walk.join_segs segs.

End Discovery.

(** ** [formatTable] *)

Module TableFormatter.

(** A string by its UTF-16 code units: the frame of the table is drawn
    with characters above 255. *)
Definition jstring : Type := list N.

Definition of_ascii_string (s : string) : jstring :=
  map N_of_ascii (list_ascii_of_string s).

Definition SPACE : N := 32%N.
Definition LINE_FEED : N := 10%N.

(** The box-drawing characters of the frame, by code point. *)
Definition HORIZONTAL : N := 9472%N.
Definition VERTICAL : N := 9474%N.
Definition TOP_LEFT : N := 9484%N.
Definition TOP_TEE : N := 9516%N.
Definition TOP_RIGHT : N := 9488%N.
Definition MID_LEFT : N := 9500%N.
Definition MID_CROSS : N := 9532%N.
Definition MID_RIGHT : N := 9508%N.
Definition BOTTOM_LEFT : N := 9492%N.
Definition BOTTOM_TEE : N := 9524%N.
Definition BOTTOM_RIGHT : N := 9496%N.

(** The column name [__proto__]. *)
Definition PROTO : jstring := of_ascii_string "__proto__".

(** [s.padEnd(targetLength)]. *)
Definition padEnd (s : jstring) (targetLength : nat) : jstring :=
  s ++ replicate (targetLength - length s) SPACE.

(** [parts.join(sep)]. *)
Fixpoint join (sep : jstring) (parts : list jstring) : jstring :=
  match parts with
  | [] => []
  | [p] => p
  | p :: rest => p ++ sep ++ join sep rest
  end.

Section WithRows.

(** A row of the result set, with what the function reads of it: its keys,
    [Object.keys(row)], and the text [String(row[col] || '')] shown for a
    column. *)
Variable Row : Type.
Variable Object_keys : Row -> list jstring.
Variable cell_text : Row -> jstring -> jstring.

(** The number the function assigns to [colWidths[col]]: the longest of
    the column name and the texts of the column, at most 30. *)
Definition colWidth (data : list Row) (col : jstring) : nat :=
  Nat.min
    (foldr Nat.max (length col) (map (fun row => length (cell_text row col)) data))
    30.

(** [colWidths] is a plain object, [{}]. Under the key [__proto__] the
    assignment of a number stores nothing, and the key reads back as
    [Object.prototype]; under every other key the number assigned is read
    back.

    [repeat_count]: the count ['─'.repeat(colWidths[col] + 2)] repeats by.
    For [__proto__] the sum is the string ["[object Object]2"], which
    [repeat] takes for 0. *)
Definition repeat_count (data : list Row) (col : jstring) : nat :=
  if bool_decide (col = PROTO) then 0 else colWidth data col + 2.

(** [pad_target]: the length [padEnd(colWidths[col])] pads to. For
    [__proto__] the argument is [Object.prototype], which [padEnd] takes
    for 0. *)
Definition pad_target (data : list Row) (col : jstring) : nat :=
  if bool_decide (col = PROTO) then 0 else colWidth data col.

(** A horizontal line of the frame. *)
Definition border (left mid right : N) (columns : list jstring) (data : list Row)
    : jstring :=
  [left]
  ++ join [mid] (map (fun col => replicate (repeat_count data col) HORIZONTAL) columns)
  ++ [right].

Definition header_line (columns : list jstring) (data : list Row) : jstring :=
  [VERTICAL]
  ++ join [VERTICAL]
       (map (fun col => [SPACE] ++ padEnd col (pad_target data col) ++ [SPACE]) columns)
  ++ [VERTICAL].

(** The text shown in a cell: a text of more than 30 units is cut to 27
    and three dots. *)
Definition shown_value (row : Row) (col : jstring) : jstring :=
  let value := cell_text row col in
  if 30 <? length value then take 27 value ++ of_ascii_string "..." else value.

Definition row_line (columns : list jstring) (data : list Row) (row : Row) : jstring :=
  [VERTICAL]
  ++ join [VERTICAL]
       (map (fun col =>
               [SPACE] ++ padEnd (shown_value row col) (pad_target data col) ++ [SPACE])
            columns)
  ++ [VERTICAL].

(** [formatTable(data)] for an array [data]; the second parameter,
    [maxWidth], is never read. *)
Definition formatTable (data : list Row) : jstring :=
  match data with
  | [] => of_ascii_string "No data found."
  | first :: _ =>
      let columns := Object_keys first in
      let result :=
        border TOP_LEFT TOP_TEE TOP_RIGHT columns data ++ [LINE_FEED] in
      let result := result ++ header_line columns data ++ [LINE_FEED] in
      let result :=
        result ++ border MID_LEFT MID_CROSS MID_RIGHT columns data ++ [LINE_FEED] in
      let result :=
        fold_left (fun result row => result ++ row_line columns data row ++ [LINE_FEED])
                  data result in
      result ++ border BOTTOM_LEFT BOTTOM_TEE BOTTOM_RIGHT columns data
  end.

(** The lines the table is made of. *)
Definition table_lines (columns : list jstring) (data : list Row) : list jstring :=
  [border TOP_LEFT TOP_TEE TOP_RIGHT columns data;
   header_line columns data;
   border MID_LEFT MID_CROSS MID_RIGHT columns data]
  ++ map (row_line columns data) data
  ++ [border BOTTOM_LEFT BOTTOM_TEE BOTTOM_RIGHT columns data].

End WithRows.

(** Rows for the examples: a row is the list of its columns and texts. *)
Definition example_keys (row : list (jstring * jstring)) : list jstring :=
  map fst row.

Definition example_text (row : list (jstring * jstring)) (col : jstring) : jstring :=
  match find (fun kv => bool_decide (fst kv = col)) row with
  | Some kv => snd kv
  | None => []
  end.

Definition example_rows : list (list (jstring * jstring)) :=
  [[(of_ascii_string "id", of_ascii_string "1");
    (of_ascii_string "name", of_ascii_string "Ada")];
   [(of_ascii_string "id", of_ascii_string "2");
    (of_ascii_string "name",
     of_ascii_string "a name of more than thirty characters")]].

End TableFormatter.

(** ** [selectProject] *)

Module Selection.
Import ProjectScanner.

Section WithParseInt.

(** [parseInt(choice)]: an integer, or [None] for [NaN]. *)
Variable parseInt : string -> option Z.

(** The loop of [selectProject] on the answers the user gives, in order:
    the project of the first answer that is the number of a project, or
    [None] while the function still waits for such an answer. *)
Fixpoint ask (projects : list Project) (answers : list string) : option Project :=
  match answers with
  | [] => None
  | choice :: later =>
      match parseInt choice with
      | Some n =>
          let index := (n - 1)%Z in
          if ((0 <=? index)%Z && (index <? Z.of_nat (length projects))%Z)%bool
          then projects !! Z.to_nat index
          else ask projects later
      | None => ask projects later
      end
  end.

(** [selectProject(projects)]: a single project is returned without a
    question. *)
Definition selectProject (projects : list Project) (answers : list string)
    : option Project :=
  match projects with
  | [p] => Some p
  | _ => ask projects answers
  end.

(** An answer the loop of [selectProject] refuses: no number at all, or
    a number that is not the number of a project, counted from 1. *)
Definition refused_answer (projects : list Project) (answer : string) : Prop :=
  match parseInt answer with
  | None => True
  | Some n => (n < 1 \/ Z.of_nat (length projects) < n)%Z
  end.

End WithParseInt.

(** [parseInt] on the answers of the example. *)
Definition example_parseInt (a : string) : option Z :=
  if String.eqb a "2" then Some 2%Z
  else if String.eqb a "7" then Some 7%Z
  else if String.eqb a "0" then Some 0%Z
  else None.

End Selection.

(** ** Induction on the file-system tree *)

Section NodeInduction.
Variable P : node -> Prop.
Hypothesis P_File : forall content, P (File content).
Hypothesis P_Special : P Special.
Hypothesis P_unreadable : forall message, P (Dir (Err message)).
Hypothesis P_Dir :
  forall entries, Forall (fun entry => P (snd entry)) entries -> P (Dir (Ok entries)).

Fixpoint node_nested_ind (n : node) : P n :=
  match n with
  | File content => P_File content
  | Special => P_Special
  | Dir (Err message) => P_unreadable message
  | Dir (Ok entries) =>
      P_Dir entries
        ((fix all (es : list (string * node)) : Forall (fun entry => P (snd entry)) es :=
            match es with
            | [] => List.Forall_nil _
            | (entry_name, child) :: es' =>
                @List.Forall_cons _ (fun entry => P (snd entry)) (entry_name, child) es'
                            (node_nested_ind child) (all es')
            end) entries)
  end.
End NodeInduction.

(** * Properties *)

(** ** Line classification *)

Module LineClassifierFacts.
Import JsString LineClassifier.

Lemma line_step_counted ext st line :
  counted (line_step ext st line) = S (counted st).
Proof.
  unfold line_step, counted. destruct st as [c m b multi].
  repeat case_match; simpl; lia.
Qed.

Lemma fold_line_step_counted ext lines st :
  counted (fold_left (line_step ext) lines st) = counted st + length lines.
Proof.
  revert st. induction lines as [|l lines IH]; intros st; simpl.
  - lia.
  - rewrite IH, line_step_counted. lia.
Qed.

Lemma length_split_LF s : length (split_LF s) = S (count_LF s).
Proof.
  induction s as [|c s IH]; simpl; [done|].
  destruct (Ascii.eqb c LF); simpl.
  - by rewrite IH.
  - destruct (split_LF s); simpl in *; lia.
Qed.

Lemma split_LF_one_line s : count_LF s = 0 -> split_LF s = [s].
Proof.
  induction s as [|c s IH]; simpl; [done|].
  destruct (Ascii.eqb c LF); simpl; [lia|].
  intros H. by rewrite IH.
Qed.

Lemma isCssLike_spec ext :
  ext ∈ [".css"; ".scss"; ".sass"; ".less"] -> isCssLike ext = true.
Proof.
  intros H. repeat (apply elem_of_cons in H as [->|H]; [reflexivity|]).
  by apply elem_of_nil in H.
Qed.

(** C4. For every content and every file path (hence every extension),
    [countLines] puts each line in exactly one of the three classes:
    the total is the number of lines of the content, the three counts
    are those of the loop run over these lines, every turn of the loop
    adds one to exactly one of the three counts and leaves the other two,
    and so code + comments + blank is the total number of lines. *)
Theorem countLines_partition (content filePath : string) :
  let r := countLines content filePath in
  let lines := split_LF content in
  let st := fold_left (line_step (toLowerCase (Path.extname filePath)))
                      lines loop_init in
  total r = length lines /\
  code r = codeLines st /\ comments r = commentLines st /\ blank r = blankLines st /\
  (forall ext st0 line,
      let st1 := line_step ext st0 line in
      (codeLines st1 = S (codeLines st0) /\
       commentLines st1 = commentLines st0 /\ blankLines st1 = blankLines st0) \/
      (codeLines st1 = codeLines st0 /\
       commentLines st1 = S (commentLines st0) /\ blankLines st1 = blankLines st0) \/
      (codeLines st1 = codeLines st0 /\
       commentLines st1 = commentLines st0 /\ blankLines st1 = S (blankLines st0))) /\
  code r + comments r + blank r = total r.
Proof.
  cbv zeta. repeat split.
  - intros ext [c m b multi] line. unfold line_step.
    repeat case_match; simpl; auto.
  - unfold countLines; simpl.
    pose proof (fold_line_step_counted
                  (toLowerCase (Path.extname filePath))
                  (split_LF content) loop_init) as H.
    unfold counted in H. simpl in H. exact H.
Qed.

(** C8. For a style-sheet extension (.css, .scss, .sass, .less), a line
    whose trimmed text is not empty and starts with the block-comment
    opener, met while no block comment is open, is counted as a comment
    line (and as nothing else), with or without a closer on the line; a
    file made of such a line alone has one line, a comment. *)
Theorem css_block_open_line_is_comment (ext line : string) (st : loop_state) :
  ext ∈ [".css"; ".scss"; ".sass"; ".less"] ->
  inMultiLineComment st = false ->
  trim line <> "" ->
  startsWith (trim line) "/*" = true ->
  line_step ext st line =
    mkLoop (codeLines st) (S (commentLines st)) (blankLines st)
           (negb (includes (trim line) "*/")) /\
  (forall filePath,
      toLowerCase (Path.extname filePath) = ext ->
      count_LF line = 0 ->
      countLines line filePath = mkLineStats 1 0 1 0).
Proof.
  intros Hext Hmulti Hne Hstart.
  apply isCssLike_spec in Hext.
  assert (Hstep : forall st', inMultiLineComment st' = false ->
            line_step ext st' line =
              mkLoop (codeLines st') (S (commentLines st')) (blankLines st')
                     (negb (includes (trim line) "*/"))).
  { intros [c m b multi] Hm. simpl in Hm. subst multi.
    unfold line_step.
    apply String.eqb_neq in Hne. rewrite Hne, Hext, Hstart, orb_true_r. simpl.
    by destruct (includes (trim line) "*/"). }
  split; [by apply Hstep|].
  intros filePath Hp Hone.
  unfold countLines. rewrite Hp, (split_LF_one_line _ Hone).
  cbn [fold_left length]. by rewrite (Hstep loop_init eq_refl).
Qed.

Lemma css_block_open_line_is_comment_witness :
  line_step ".css" loop_init "  /* reset" = mkLoop 0 1 0 true /\
  countLines "  /* reset" "/site/main.CSS" = mkLineStats 1 0 1 0.
Proof.
  destruct (css_block_open_line_is_comment ".css" "  /* reset" loop_init)
    as [Hstep Hfile].
  - left.
  - reflexivity.
  - vm_compute. discriminate.
  - vm_compute. reflexivity.
  - split; [exact Hstep|].
    apply Hfile; vm_compute; reflexivity.
Defined.

(** C9. The total [countLines] returns is the number of line feeds of
    the content plus one, so it is at least 1; the empty content gives
    one line, a blank one, and an empty file adds one file, one line and
    one blank line to the totals of the counter. *)
Theorem countLines_total (content filePath : string) :
  total (countLines content filePath) = count_LF content + 1 /\
  1 <= total (countLines content filePath) /\
  countLines "" filePath = mkLineStats 1 0 0 1 /\
  (forall framework relativePath stats,
      CodeCounter.summary_of
        (CodeCounter.processFile framework filePath relativePath (Ok "") stats)
      = CodeCounter.summary_add (CodeCounter.summary_of stats)
                                (CodeCounter.mkSummary 1 1 0 1 0)).
Proof.
  unfold countLines; simpl. rewrite length_split_LF.
  split; [lia|]. split; [lia|]. split; [reflexivity|].
  intros framework relativePath stats.
  unfold CodeCounter.summary_of, CodeCounter.summary_add. simpl.
  f_equal; lia.
Qed.

End LineClassifierFacts.

(** ** Project discovery *)

Module ProjectScannerFacts.
Import JsString FrameworkCatalog ProjectScanner.

Section WithJson.
Variable JSON_parse : string -> option PackageJson.

Lemma scanDirectory_stop dir dirPath d maxDepth ps :
  maxDepth <= d -> scanDirectory JSON_parse dir dirPath d maxDepth ps = ps.
Proof.
  intros H. apply Nat.leb_le in H.
  destruct dir as [?|[?|?]|]; simpl; by rewrite H.
Qed.

Lemma scanDirectory_Dir entries dirPath d maxDepth ps :
  d < maxDepth ->
  scanDirectory JSON_parse (Dir (Ok entries)) dirPath d maxDepth ps =
  fold_left (scan_entry JSON_parse dirPath d maxDepth) entries
            (record_project JSON_parse (Dir (Ok entries)) dirPath ps).
Proof.
  intros H. apply Nat.leb_gt in H. simpl. by rewrite H.
Qed.

Lemma scanDirectory_not_listed dir dirPath d maxDepth ps :
  (forall entries, dir <> Dir (Ok entries)) ->
  scanDirectory JSON_parse dir dirPath d maxDepth ps = ps.
Proof.
  intros H. destruct dir as [?|[entries|?]|]; simpl;
    try by destruct (maxDepth <=? d).
  by destruct (H entries).
Qed.

(** The walk only adds to [this.projects]. *)
Lemma fold_keeps_aux dirPath d maxDepth entries :
  Forall (fun entry => forall dirPath d maxDepth ps p,
            p ∈ ps -> p ∈ scanDirectory JSON_parse (snd entry) dirPath d maxDepth ps)
         entries ->
  forall ps p, p ∈ ps ->
    p ∈ fold_left (scan_entry JSON_parse dirPath d maxDepth) entries ps.
Proof.
  induction 1 as [|[entry_name child] es Hchild _ IH]; intros ps p Hp; simpl; [done|].
  apply IH. destruct (descends entry_name child); [|done].
  by apply Hchild.
Qed.

Lemma scan_keeps dir :
  forall dirPath d maxDepth ps p,
    p ∈ ps -> p ∈ scanDirectory JSON_parse dir dirPath d maxDepth ps.
Proof.
  induction dir as [content| |message|entries IH] using node_nested_ind;
    intros dirPath d maxDepth ps p Hp;
    try (rewrite scanDirectory_not_listed; [done|by intros ?]).
  destruct (decide (d < maxDepth)) as [Hlt|Hge].
  - rewrite scanDirectory_Dir by done.
    apply fold_keeps_aux; [done|].
    unfold record_project. case_match; [|done].
    apply elem_of_app. by left.
  - rewrite scanDirectory_stop by lia. done.
Qed.

Lemma fold_keeps dirPath d maxDepth entries ps p :
  p ∈ ps -> p ∈ fold_left (scan_entry JSON_parse dirPath d maxDepth) entries ps.
Proof.
  apply fold_keeps_aux. apply Forall_forall. intros entry _ ? ? ? ? ?.
  apply scan_keeps.
Qed.

Lemma detectFramework_listed dir fw :
  detectFramework JSON_parse dir = Some fw -> exists entries, dir = Dir (Ok entries).
Proof. destruct dir as [?|[entries|?]|]; simpl; try done. eauto. Qed.

(** A matching directory above the depth bound is recorded. *)
Lemma scan_records dir dirPath d maxDepth ps fw :
  d < maxDepth ->
  detectFramework JSON_parse dir = Some fw ->
  mkProject (Path.basename dirPath) dirPath fw
    ∈ scanDirectory JSON_parse dir dirPath d maxDepth ps.
Proof.
  intros Hlt Hfw. destruct (detectFramework_listed _ _ Hfw) as [entries ->].
  rewrite scanDirectory_Dir by done. apply fold_keeps.
  unfold record_project. rewrite Hfw. apply elem_of_app. right. by left.
Qed.

(** What the walk of an eligible entry records, the walk of its
    directory records. *)
Lemma scan_child entries dirPath d maxDepth entry_name child p :
  d < maxDepth ->
  (entry_name, child) ∈ entries ->
  descends entry_name child = true ->
  (forall ps, p ∈ scanDirectory JSON_parse child (Path.join dirPath entry_name)
                                (S d) maxDepth ps) ->
  forall ps, p ∈ scanDirectory JSON_parse (Dir (Ok entries)) dirPath d maxDepth ps.
Proof.
  intros Hlt Hin Hdesc Hchild ps. rewrite scanDirectory_Dir by done.
  generalize (record_project JSON_parse (Dir (Ok entries)) dirPath ps).
  clear ps. induction entries as [|entry es IH]; intros ps.
  - by apply elem_of_nil in Hin.
  - apply elem_of_cons in Hin as [<-|Hin]; simpl.
    + apply fold_keeps. by rewrite Hdesc.
    + by apply IH.
Qed.

Lemma reaches_records start startDir maxDepth d dir dirPath p :
  reaches start startDir d dir dirPath ->
  (forall ps, p ∈ scanDirectory JSON_parse dir dirPath d maxDepth ps) ->
  forall ps, p ∈ scanForProjects JSON_parse start startDir maxDepth ps.
Proof.
  induction 1 as [|d entries entry_name child dirPath _ IH Hin Hdesc];
    intros Hp; [done|].
  apply IH. destruct (decide (d < maxDepth)) as [Hlt|Hge].
  - by apply (scan_child entries dirPath d maxDepth entry_name child).
  - specialize (Hp []). rewrite scanDirectory_stop in Hp by lia.
    by apply elem_of_nil in Hp.
Qed.

Lemma fold_sound_aux start startDir maxDepth d entries dirPath es :
  reaches start startDir d (Dir (Ok entries)) dirPath ->
  Forall (fun entry =>
            entry ∈ entries /\
            forall dirPath d ps p,
              reaches start startDir d (snd entry) dirPath ->
              p ∈ scanDirectory JSON_parse (snd entry) dirPath d maxDepth ps ->
              p ∈ ps \/ found JSON_parse start startDir maxDepth p) es ->
  forall ps p,
    p ∈ fold_left (scan_entry JSON_parse dirPath d maxDepth) es ps ->
    p ∈ ps \/ found JSON_parse start startDir maxDepth p.
Proof.
  intros Hreach.
  induction 1 as [|[entry_name child] es [Hin Hchild] _ IH]; intros ps p Hp;
    simpl in Hp; [by left|].
  apply IH in Hp as [Hp|Hp]; [|by right].
  destruct (descends entry_name child) eqn:Hdesc; [|by left].
  eapply Hchild; [|exact Hp].
  by eapply reaches_entry.
Qed.

Lemma scan_sound start startDir maxDepth dir :
  forall dirPath d ps p,
    reaches start startDir d dir dirPath ->
    p ∈ scanDirectory JSON_parse dir dirPath d maxDepth ps ->
    p ∈ ps \/ found JSON_parse start startDir maxDepth p.
Proof.
  induction dir as [content| |message|entries IH] using node_nested_ind;
    intros dirPath d ps p Hreach Hp;
    try (rewrite scanDirectory_not_listed in Hp; [by left|by intros ?]).
  destruct (decide (d < maxDepth)) as [Hlt|Hge].
  - rewrite scanDirectory_Dir in Hp by done.
    eapply fold_sound_aux in Hp; [|exact Hreach|].
    + destruct Hp as [Hp|Hp]; [|by right].
      unfold record_project in Hp.
      destruct (detectFramework JSON_parse (Dir (Ok entries))) as [fw|] eqn:Hfw;
        [|by left].
      apply elem_of_app in Hp as [Hp|Hp]; [by left|].
      apply list_elem_of_singleton in Hp. right.
      exists d, (Dir (Ok entries)), dirPath, fw. done.
    + apply Forall_forall. intros entry Hin. split; [done|].
      rewrite Forall_forall in IH. by apply IH.
  - rewrite scanDirectory_stop in Hp by lia. by left.
Qed.

End WithJson.

(** A directory that lists [src] is matched by the Vue entry of the
    catalogue at the latest, which stands before the React entry. *)
Lemma src_listed_not_react JSON_parse entries :
  "src" ∈ map fst entries ->
  exists fw, detectFramework JSON_parse (Dir (Ok entries)) = Some fw /\
             fw ∈ [nextjs; nuxtjs; vue].
Proof.
  intros Hsrc. unfold detectFramework.
  set (files := map fst entries) in *.
  set (packageJson := readPackageJson JSON_parse entries).
  assert (Hdirs : hasTypicalDirs vue files = true).
  { unfold hasTypicalDirs, Array_includes. cbn [directories vue existsb].
    rewrite orb_false_r. apply existsb_exists. exists "src".
    split; [by apply list_elem_of_In|reflexivity]. }
  unfold FRAMEWORKS. cbn [find].
  destruct (hasConfigFile nextjs files || hasPackageDep nextjs packageJson
            || hasTypicalDirs nextjs files);
    [eexists; split; [reflexivity|rewrite !elem_of_cons; tauto]|].
  destruct (hasConfigFile nuxtjs files || hasPackageDep nuxtjs packageJson
            || hasTypicalDirs nuxtjs files);
    [eexists; split; [reflexivity|rewrite !elem_of_cons; tauto]|].
  rewrite Hdirs, orb_true_r.
  eexists; split; [reflexivity|rewrite !elem_of_cons; tauto].
Qed.

(** C1, on the code. A directory whose entries are exactly [package.json],
    with [react] as its only dependency, and a directory [src] is
    detected as the Vue entry of the catalogue, not as the React one: the
    Vue entry stands first and lists [src] among its directories. *)
Theorem react_manifest_with_src_detected_as_vue
    (JSON_parse : string -> option PackageJson) (packageContent : string) (src : node) :
  JSON_parse packageContent = Some (mkPackageJson ["react"] []) ->
  isDirectory src = true ->
  detectFramework JSON_parse
    (Dir (Ok [("package.json", File (Ok packageContent)); ("src", src)]))
  = Some vue /\ vue <> react.
Proof.
  intros Hjson _. split; [|discriminate].
  unfold detectFramework, readPackageJson. simpl. rewrite Hjson.
  vm_compute. reflexivity.
Qed.

Lemma react_manifest_with_src_detected_as_vue_witness :
  detectFramework (fun _ => Some (mkPackageJson ["react"] []))
    (Dir (Ok [("package.json", File (Ok "{ }")); ("src", Dir (Ok []))]))
  = Some vue /\ vue <> react.
Proof.
  apply (react_manifest_with_src_detected_as_vue
           (fun _ => Some (mkPackageJson ["react"] [])) "{ }" (Dir (Ok [])));
    reflexivity.
Defined.

(** C2, as stated, fails: with the default bound 3, a directory three
    levels below the start directory that holds [next.config.js] is
    reached through eligible entries and matches the Next.js entry, and
    the scan records nothing. *)
Lemma project_at_maxDepth_not_recorded :
  reaches deep_tree "/home/u" 3 deep_project "/home/u/a/b/web" /\
  detectFramework (fun _ => None) deep_project = Some nextjs /\
  scanForProjects (fun _ => None) deep_tree "/home/u" default_maxDepth [] = [].
Proof.
  split; [|split; vm_compute; reflexivity].
  apply (reaches_entry deep_tree "/home/u" 2 [("web", deep_project)] "web"
                       deep_project "/home/u/a/b"); [|left|reflexivity].
  apply (reaches_entry deep_tree "/home/u" 1
                       [("b", Dir (Ok [("web", deep_project)]))] "b"
                       (Dir (Ok [("web", deep_project)])) "/home/u/a");
    [|left|reflexivity].
  apply (reaches_entry deep_tree "/home/u" 0
                       [("a", Dir (Ok [("b", Dir (Ok [("web", deep_project)]))]))] "a"
                       (Dir (Ok [("b", Dir (Ok [("web", deep_project)]))])) "/home/u");
    [|left|reflexivity].
  apply reaches_start.
Qed.

(** C2, amended. A scan with a fresh scanner records exactly the matching
    directories met less than [maxDepth] levels below the start
    directory (the start directory being at level 0), going down through
    listed entries that are directories, are not in the ignore set and do
    not start with a dot: each of them is recorded with its base name,
    its path and the catalogue entry it matches, and every recorded
    project is one of them. A directory at level [maxDepth] or below is
    not examined: the call for it returns at once. *)
Theorem scan_records_below_maxDepth
    (JSON_parse : string -> option PackageJson)
    (start : node) (startDir : string) (maxDepth : nat) :
  (forall d dir dirPath fw,
      reaches start startDir d dir dirPath ->
      d < maxDepth ->
      detectFramework JSON_parse dir = Some fw ->
      mkProject (Path.basename dirPath) dirPath fw
        ∈ scanForProjects JSON_parse start startDir maxDepth []) /\
  (forall p,
      p ∈ scanForProjects JSON_parse start startDir maxDepth [] ->
      found JSON_parse start startDir maxDepth p) /\
  (forall d dir dirPath projects,
      maxDepth <= d ->
      scanDirectory JSON_parse dir dirPath d maxDepth projects = projects).
Proof.
  split; [|split].
  - intros d dir dirPath fw Hreach Hlt Hfw.
    eapply reaches_records; [exact Hreach|].
    intros ps. by apply scan_records.
  - intros p Hp. unfold scanForProjects in Hp.
    apply scan_sound with (start := start) (startDir := startDir) in Hp
      as [Hp|Hp]; [by apply elem_of_nil in Hp|done|apply reaches_start].
  - intros d dir dirPath projects Hge. by apply scanDirectory_stop.
Qed.

Lemma scan_records_below_maxDepth_witness :
  mkProject "a" "/home/u/a" nextjs
    ∈ scanForProjects (fun _ => None) shallow_tree "/home/u" default_maxDepth [].
Proof.
  apply (proj1 (scan_records_below_maxDepth (fun _ => None) shallow_tree "/home/u"
                  default_maxDepth) 1 deep_project "/home/u/a" nextjs).
  - apply (reaches_entry shallow_tree "/home/u" 0 [("a", deep_project)] "a"
                         deep_project "/home/u"); [apply reaches_start|left|reflexivity].
  - unfold default_maxDepth. lia.
  - reflexivity.
Defined.

End ProjectScannerFacts.

(** ** Counting *)

Module CodeCounterFacts.
Import JsString FrameworkCatalog LineClassifier CodeCounter.

Lemma count_scanDirectory_Dir framework entries dirPath rel stats :
  scanDirectory framework (Dir (Ok entries)) dirPath rel stats =
  fold_left (scan_entry framework dirPath rel) entries stats.
Proof. reflexivity. Qed.

(** *** A relation kept by every step of the walk is kept by the walk *)

Section WalkRelation.
Variable framework : option Framework.
Variable R : Stats -> Stats -> Prop.
Hypothesis R_processFile :
  forall filePath relativePath file s1 s2,
    R s1 s2 ->
    R (processFile framework filePath relativePath file s1)
      (processFile framework filePath relativePath file s2).
Hypothesis R_push_error :
  forall message s1 s2, R s1 s2 -> R (push_error s1 message) (push_error s2 message).

Lemma fold_rel_aux dirPath rel entries :
  Forall (fun entry => forall dirPath rel s1 s2,
            R s1 s2 ->
            R (scanDirectory framework (snd entry) dirPath rel s1)
              (scanDirectory framework (snd entry) dirPath rel s2)) entries ->
  forall s1 s2, R s1 s2 ->
    R (fold_left (scan_entry framework dirPath rel) entries s1)
      (fold_left (scan_entry framework dirPath rel) entries s2).
Proof.
  induction 1 as [|[entry_name child] es Hchild _ IH]; intros s1 s2 HR;
    [done|].
  cbn [fold_left]. apply IH. unfold scan_entry.
  destruct child as [file|listing|]; [| |done].
  - destruct (negb (shouldIgnoreFile entry_name) &&
              isCodeFile (Path.join dirPath entry_name)); [|done].
    by apply R_processFile.
  - destruct (negb (shouldIgnoreDir entry_name)); [|done].
    by apply Hchild.
Qed.

Lemma scanDirectory_rel dir :
  forall dirPath rel s1 s2,
    R s1 s2 ->
    R (scanDirectory framework dir dirPath rel s1)
      (scanDirectory framework dir dirPath rel s2).
Proof.
  induction dir as [content| |message|entries IH] using node_nested_ind;
    intros dirPath rel s1 s2 HR; try by apply R_push_error.
  rewrite !count_scanDirectory_Dir. by apply fold_rel_aux.
Qed.

Lemma fold_rel dirPath rel entries s1 s2 :
  R s1 s2 ->
  R (fold_left (scan_entry framework dirPath rel) entries s1)
    (fold_left (scan_entry framework dirPath rel) entries s2).
Proof.
  apply fold_rel_aux. apply Forall_forall. intros entry _ ? ? ? ?.
  apply scanDirectory_rel.
Qed.
End WalkRelation.

(** The same for a property of one state. *)
Lemma scanDirectory_inv framework (P : Stats -> Prop) :
  (forall filePath relativePath file s,
      P s -> P (processFile framework filePath relativePath file s)) ->
  (forall message s, P s -> P (push_error s message)) ->
  forall dir dirPath rel s, P s -> P (scanDirectory framework dir dirPath rel s).
Proof.
  intros Hfile Herr dir dirPath rel s Hs.
  apply (scanDirectory_rel framework (fun s1 _ => P s1)) with (s2 := s); auto.
Qed.

(** *** The list of largest files *)

Lemma sort_insert_elem x l y : y ∈ sort_insert x l <-> y = x \/ y ∈ l.
Proof.
  induction l as [|z l IH]; simpl.
  - rewrite list_elem_of_singleton, elem_of_nil. tauto.
  - destruct (FileEntry.lines x <? FileEntry.lines z);
      rewrite !elem_of_cons; [rewrite IH|]; tauto.
Qed.

Lemma sort_insert_length x l : length (sort_insert x l) = S (length l).
Proof.
  induction l as [|z l IH]; simpl; [done|].
  destruct (FileEntry.lines x <? FileEntry.lines z); simpl; by rewrite ?IH.
Qed.

Lemma sort_insert_sorted x l :
  StronglySorted more_lines l -> StronglySorted more_lines (sort_insert x l).
Proof.
  induction 1 as [|z l Hsorted IH Hz]; simpl.
  - repeat constructor.
  - destruct (Nat.ltb_spec (FileEntry.lines x) (FileEntry.lines z)) as [Hlt|Hge].
    + constructor; [done|]. apply Forall_forall. intros y Hy.
      apply sort_insert_elem in Hy as [->|Hy].
      * unfold more_lines. lia.
      * rewrite Forall_forall in Hz. by apply Hz.
    + constructor; [by constructor|]. constructor; [done|].
      eapply Forall_impl; [exact Hz|]. unfold more_lines. intros; simpl in *; lia.
Qed.

Lemma sort_length l : length (sort_by_lines_desc l) = length l.
Proof.
  induction l as [|x l IH]; simpl; [done|]. by rewrite sort_insert_length, IH.
Qed.

Lemma sort_sorted l : StronglySorted more_lines (sort_by_lines_desc l).
Proof.
  induction l as [|x l IH]; simpl; [constructor|]. by apply sort_insert_sorted.
Qed.

(** Sorting keeps the entries. *)
Lemma sort_insert_perm x l : sort_insert x l ≡ₚ x :: l.
Proof.
  induction l as [|z l IH]; simpl; [done|].
  destruct (FileEntry.lines x <? FileEntry.lines z); [|done].
  rewrite IH. apply Permutation_swap.
Qed.

Lemma sort_perm l : sort_by_lines_desc l ≡ₚ l.
Proof.
  induction l as [|x l IH]; simpl; [done|]. by rewrite sort_insert_perm, IH.
Qed.

Lemma processFile_largest framework filePath relativePath file s :
  length (largestFiles s) <= 5 ->
  length (largestFiles (processFile framework filePath relativePath file s)) <= 5.
Proof.
  intros Hs. destruct file as [content|message]; simpl; [|done].
  match goal with |- context [if ?b then _ else _] => destruct b eqn:Hb end.
  - rewrite length_take. lia.
  - apply Nat.ltb_ge in Hb. done.
Qed.

(** C5. With a fresh counter, after every processed file the list of
    largest files has at most 5 entries; the list of the final report
    has at most 5 entries and is in descending order of line count. *)
Theorem largestFiles_capped_and_sorted (framework : option Framework) :
  (forall files,
      length (largestFiles (process_all framework files new_stats)) <= 5) /\
  (forall project projectPath,
      let report := scan framework project projectPath new_stats in
      length (r_largestFiles report) <= 5 /\
      StronglySorted more_lines (r_largestFiles report)).
Proof.
  split.
  - intros files. unfold process_all.
    assert (H : length (largestFiles new_stats) <= 5) by (simpl; lia).
    revert H. generalize new_stats.
    induction files as [|f files IH]; intros s Hs; simpl; [done|].
    apply IH. by apply processFile_largest.
  - intros project projectPath. unfold scan, generateReport. simpl.
    split; [|apply sort_sorted].
    rewrite sort_length.
    apply (scanDirectory_inv framework (fun s => length (largestFiles s) <= 5)).
    + intros. by apply processFile_largest.
    + done.
    + simpl. lia.
Qed.

(** *** Buckets *)







(** *** Errors *)

Lemma aggregates_processFile framework filePath relativePath file s1 s2 :
  aggregates s1 = aggregates s2 ->
  aggregates (processFile framework filePath relativePath file s1) =
  aggregates (processFile framework filePath relativePath file s2).
Proof.
  destruct s1, s2. unfold aggregates. simpl. intros [= -> -> -> -> -> -> -> ->].
  by destruct file.
Qed.

Lemma one_more_error_processFile framework e1 line filePath relativePath file a b :
  one_more_error e1 line a b ->
  one_more_error e1 line (processFile framework filePath relativePath file a)
                         (processFile framework filePath relativePath file b).
Proof.
  intros [Hagg (e2 & Ha & Hb)]. split; [by apply aggregates_processFile|].
  destruct file as [content|message]; simpl.
  - by exists e2.
  - exists (e2 ++ ["Error processing file " +:+ filePath +:+ ": " +:+ message]).
    rewrite Ha, Hb. by rewrite <- !app_assoc.
Qed.

Lemma one_more_error_push e1 line message a b :
  one_more_error e1 line a b ->
  one_more_error e1 line (push_error a message) (push_error b message).
Proof.
  intros [Hagg (e2 & Ha & Hb)]. split.
  - destruct a, b. unfold aggregates in *. simpl in *. done.
  - exists (e2 ++ [message]). simpl. rewrite Ha, Hb. by rewrite <- !app_assoc.
Qed.

(** C7. When reading a file of the walk fails, [processFile] appends one
    message, naming the file and the failure, to the error list and
    changes nothing else; the walk goes on with the next entries, and
    ends with the totals, buckets and largest files it has without that
    file, and with the error list it has without that file plus that one
    message. *)
Theorem unreadable_file_only_adds_error
    (framework : option Framework) (dirPath rel : string)
    (before after : list (string * node)) (entry_name message : string) (s : Stats) :
  shouldIgnoreFile entry_name = false ->
  isCodeFile (Path.join dirPath entry_name) = true ->
  let filePath := Path.join dirPath entry_name in
  let line := "Error processing file " +:+ filePath +:+ ": " +:+ message in
  let with_file :=
    scanDirectory framework
      (Dir (Ok (before ++ (entry_name, File (Err message)) :: after))) dirPath rel s in
  let without :=
    scanDirectory framework (Dir (Ok (before ++ after))) dirPath rel s in
  processFile framework filePath (Path.relative_join rel entry_name) (Err message) s
    = push_error s line /\
  aggregates (push_error s line) = aggregates s /\
  errors (push_error s line) = errors s ++ [line] /\
  aggregates with_file = aggregates without /\
  exists e1 e2, errors without = e1 ++ e2 /\ errors with_file = e1 ++ line :: e2.
Proof.
  intros Hfile Hcode filePath line with_file without.
  split; [done|]. split; [done|]. split; [done|].
  subst with_file without. rewrite !count_scanDirectory_Dir, !fold_left_app.
  cbn [fold_left].
  assert (Hentry : forall st,
            scan_entry framework dirPath rel st (entry_name, File (Err message))
            = push_error st line).
  { intros st. unfold scan_entry. by rewrite Hfile, Hcode. }
  rewrite !Hentry.
  set (s1 := fold_left (scan_entry framework dirPath rel) before s).
  assert (H : one_more_error (errors s1) line (push_error s1 line) s1).
  { split; [done|]. exists []. simpl. by rewrite app_nil_r. }
  apply (fold_rel framework (one_more_error (errors s1) line)) with
    (dirPath := dirPath) (rel := rel) (entries := after) in H.
  - destruct H as [Hagg (e2 & Ha & Hb)]. split; [exact Hagg|]. exists (errors s1), e2. split; [exact Hb|exact Ha].
  - intros. by apply one_more_error_processFile.
  - intros. by apply one_more_error_push.
Qed.

Lemma unreadable_file_only_adds_error_witness :
  aggregates
    (scanDirectory None
       (Dir (Ok ([("a.js", File (Ok "x"))] ++
                 ("b.js", File (Err "EACCES: permission denied")) ::
                 [("c.css", File (Ok "y"))]))) "/p" "" new_stats)
  = aggregates
      (scanDirectory None
         (Dir (Ok ([("a.js", File (Ok "x"))] ++ [("c.css", File (Ok "y"))])))
         "/p" "" new_stats).
Proof.
  apply (unreadable_file_only_adds_error None "/p" ""
           [("a.js", File (Ok "x"))] [("c.css", File (Ok "y"))]
           "b.js" "EACCES: permission denied" new_stats);
    reflexivity.
Defined.

(** *** Scanning again with the same counter *)

Lemma summary_processFile framework filePath relativePath file base a b :
  summary_of a = summary_add base (summary_of b) ->
  summary_of (processFile framework filePath relativePath file a) =
  summary_add base (summary_of (processFile framework filePath relativePath file b)).
Proof.
  destruct a, b, base. unfold summary_of, summary_add. simpl.
  intros [= -> -> -> -> ->]. destruct file; simpl; [|done].
  f_equal; lia.
Qed.

Lemma summary_scanDirectory framework dir dirPath rel stats :
  summary_of (scanDirectory framework dir dirPath rel stats) =
  summary_add (summary_of stats)
              (summary_of (scanDirectory framework dir dirPath rel new_stats)).
Proof.
  apply (scanDirectory_rel framework
           (fun a b => summary_of a = summary_add (summary_of stats) (summary_of b))).
  - intros. by apply summary_processFile.
  - intros message a b H. exact H.
  - destruct stats. unfold summary_of, summary_add. simpl. f_equal; lia.
Qed.

(** C3, as stated, fails: a project with one file of one line gives the
    totals 1, 1, 1, 0, 0 on the first scan and 2, 2, 2, 0, 0 on a second
    scan with the same counter. *)
Lemma second_scan_changes_summary :
  summary (scan None one_file_project "/p" new_stats) = mkSummary 1 1 1 0 0 /\
  summary (scan None one_file_project "/p"
             (stats_after_report
                (scanDirectory None one_file_project "/p" "" new_stats)))
  = mkSummary 2 2 2 0 0.
Proof. split; vm_compute; reflexivity. Qed.

(** C3, amended. A scan adds what it counts to the totals the counter
    holds: the summary after a scan is the sum of the totals before it and
    of the summary a fresh counter gives on the same tree. So the summary
    of a fresh counter depends on the tree alone, and a second scan with
    the same counter on an unchanged tree doubles every total. *)
Theorem scan_adds_to_counter
    (framework : option Framework) (project : node) (projectPath : string) :
  (forall stats,
      summary (scan framework project projectPath stats) =
      summary_add (summary_of stats)
                  (summary (scan framework project projectPath new_stats))) /\
  summary (scan framework project projectPath
             (stats_after_report
                (scanDirectory framework project projectPath "" new_stats)))
  = summary_add (summary (scan framework project projectPath new_stats))
                (summary (scan framework project projectPath new_stats)).
Proof.
  assert (H : forall stats,
      summary (scan framework project projectPath stats) =
      summary_add (summary_of stats)
                  (summary (scan framework project projectPath new_stats))).
  { intros stats. unfold scan, generateReport. cbn [summary stats_after_report
      totalFiles totalLines totalCodeLines totalBlankLines totalCommentLines].
    apply (summary_scanDirectory framework project projectPath "" stats). }
  split; [exact H|]. rewrite H. reflexivity.
Qed.

(** *** Categories *)

Lemma count_char_app c a b :
  count_char c (a +:+ b) = count_char c a + count_char c b.
Proof. induction a as [|x a IH]; simpl; [done|]. rewrite IH. lia. Qed.

Lemma prefix_count_char c p : forall s,
  String.prefix p s = true -> count_char c p <= count_char c s.
Proof.
  induction p as [|x p IH]; intros [|y s]; simpl; try done; try lia.
  destruct (ascii_dec x y) as [->|]; [|done].
  intros H%IH. lia.
Qed.

Lemma includes_count_char c sub s :
  includes s sub = true -> count_char c sub <= count_char c s.
Proof.
  induction s as [|x s IH]; cbn [includes].
  - rewrite orb_false_r. apply prefix_count_char.
  - intros [H|H]%orb_true_iff.
    + by apply (prefix_count_char c) in H.
    + apply IH in H. simpl. lia.
Qed.

Lemma no_sep_count s : includes s "/" = false -> count_char Path.sep s = 0.
Proof.
  induction s as [|x s IH]; [done|].
  cbn [includes count_char]. intros [Hp Hs]%orb_false_iff.
  rewrite (IH Hs). simpl in Hp.
  destruct (ascii_dec "/" x) as [<-|Hne].
  - by destruct s.
  - destruct (Ascii.eqb_spec x Path.sep) as [->|]; [by destruct Hne|done].
Qed.

Lemma RegExp_test_needs_two_sep pattern s :
  count_char Path.sep s < 2 -> RegExp_test pattern s = false.
Proof.
  intros Hs. apply not_true_iff_false. unfold RegExp_test.
  intros (alt & _ & H)%existsb_exists.
  apply (includes_count_char Path.sep) in H.
  rewrite !count_char_app in H. simpl in H. lia.
Qed.

Lemma categorizeFile_needs_two_sep framework s :
  count_char Path.sep s < 2 -> categorizeFile framework s = "other".
Proof.
  intros Hs. destruct framework as [fw|]; [|done]. unfold categorizeFile.
  induction (FrameworkCatalog.categories fw) as [|[category pattern] l IH];
    [done|].
  cbn [find snd]. by rewrite RegExp_test_needs_two_sep.
Qed.

(** C10. The file is categorised by its path relative to the project, which
    has no leading separator, and a pattern matches only a path with a
    separator on both sides of the category directory. So for every
    framework of the catalogue a file right inside a top-level directory,
    such as [pages/index.js], is categorised as [other], also by the walk
    of the project. *)
Theorem top_level_directory_file_is_other
    (fw : Framework) (dirName fileName : string) :
  fw ∈ FRAMEWORKS ->
  includes dirName "/" = false ->
  includes fileName "/" = false ->
  dirName <> "" ->
  let relativePath := Path.relative_join (Path.relative_join "" dirName) fileName in
  relativePath = dirName +:+ "/" +:+ fileName /\
  categorizeFile (Some fw) relativePath = "other" /\
  (forall projectPath content,
      shouldIgnoreDir dirName = false ->
      shouldIgnoreFile fileName = false ->
      isCodeFile (Path.join (Path.join projectPath dirName) fileName) = true ->
      let lineStats :=
        countLines content (Path.join (Path.join projectPath dirName) fileName) in
      categories (scanDirectory (Some fw)
                    (Dir (Ok [(dirName, Dir (Ok [(fileName, File (Ok content))]))]))
                    projectPath "" new_stats)
      = {[ "other" := Bucket.mk 1 (total lineStats) (code lineStats) ]}).
Proof.
  intros _ Hdir Hfile Hne relativePath.
  assert (Hrel : relativePath = dirName +:+ "/" +:+ fileName).
  { subst relativePath. unfold Path.relative_join. simpl.
    apply String.eqb_neq in Hne. by rewrite Hne. }
  assert (Hother : categorizeFile (Some fw) relativePath = "other").
  { apply categorizeFile_needs_two_sep. rewrite Hrel, !count_char_app.
    rewrite (no_sep_count _ Hdir), (no_sep_count _ Hfile). simpl. lia. }
  split; [done|]. split; [done|].
  intros projectPath content HiD HiF Hcode lineStats.
  rewrite count_scanDirectory_Dir. cbn [fold_left]. unfold scan_entry at 1.
  rewrite HiD. cbn [negb]. rewrite count_scanDirectory_Dir. cbn [fold_left].
  unfold scan_entry. rewrite HiF, Hcode. cbn [negb andb].
  unfold processFile. cbn [categories]. fold relativePath. rewrite Hother.
  unfold add_to_bucket. cbn [categories new_stats].
  rewrite lookup_empty. simpl. reflexivity.
Qed.

Lemma top_level_directory_file_is_other_witness :
  categorizeFile (Some nextjs) "pages/index.js" = "other".
Proof.
  apply (top_level_directory_file_is_other nextjs "pages" "index.js");
    [left|reflexivity|reflexivity|discriminate].
Defined.

End CodeCounterFacts.

(** ** More on line classification *)

Module LineCountsFacts.
Import JsString LineClassifier LineCounts.

Lemma blank_count_cons l lines :
  blank_count (l :: lines) = (if is_blank l then 1 else 0) + blank_count lines.
Proof. unfold blank_count. simpl. rewrite filter_cons. by destruct (is_blank l). Qed.

Lemma nonblank_count_cons l lines :
  nonblank_count (l :: lines) = (if is_blank l then 0 else 1) + nonblank_count lines.
Proof. unfold nonblank_count. rewrite filter_cons. by destruct (is_blank l). Qed.

Lemma line_step_blank ext st line :
  blankLines (line_step ext st line) =
  blankLines st + (if is_blank line then 1 else 0).
Proof.
  unfold line_step, is_blank. destruct st as [c m b multi].
  destruct (String.eqb (trim line) ""); [simpl; lia|].
  repeat case_match; simpl; lia.
Qed.

Lemma fold_line_step_blank ext lines st :
  blankLines (fold_left (line_step ext) lines st) = blankLines st + blank_count lines.
Proof.
  revert st. induction lines as [|l lines IH]; intros st.
  - simpl. unfold blank_count. simpl. lia.
  - cbn [fold_left]. rewrite IH, line_step_blank, blank_count_cons. lia.
Qed.

(** X1. The number of blank lines [countLines] reports is the number of
    lines of the content whose trimmed text is empty, whatever the file
    path and its extension are: neither the comment rules nor an open
    block comment change it. *)
Theorem blank_lines_ignore_extension (content filePath : string) :
  blank (countLines content filePath) = blank_count (split_LF content) /\
  (forall otherPath,
      blank (countLines content otherPath) = blank (countLines content filePath)).
Proof.
  assert (H : forall p, blank (countLines content p) = blank_count (split_LF content)).
  { intros p. unfold countLines. cbn [blank]. by rewrite fold_line_step_blank. }
  split; [apply H|]. intros otherPath. by rewrite !H.
Qed.

Lemma line_step_plain ext st line :
  plain_ext ext = true ->
  line_step ext st line =
    if is_blank line
    then mkLoop (codeLines st) (commentLines st) (S (blankLines st))
                (inMultiLineComment st)
    else mkLoop (S (codeLines st)) (commentLines st) (blankLines st)
                (inMultiLineComment st).
Proof.
  unfold plain_ext. intros [[Hjs Hcss]%andb_true_iff Hhtml]%andb_true_iff.
  apply negb_true_iff in Hjs, Hcss, Hhtml.
  unfold line_step, is_blank. destruct st as [c m b multi].
  rewrite Hjs, Hcss, Hhtml. simpl. done.
Qed.

Lemma fold_line_step_plain ext lines st :
  plain_ext ext = true ->
  codeLines (fold_left (line_step ext) lines st) = codeLines st + nonblank_count lines /\
  commentLines (fold_left (line_step ext) lines st) = commentLines st.
Proof.
  intros Hext. revert st. induction lines as [|l lines IH]; intros st.
  - simpl. unfold nonblank_count. simpl. lia.
  - cbn [fold_left]. destruct (IH (line_step ext st l)) as [-> ->].
    rewrite nonblank_count_cons, (line_step_plain _ _ _ Hext).
    destruct (is_blank l); simpl; lia.
Qed.

(** X2. For a file whose extension is neither script-like, nor
    style-sheet-like, nor [.html] (such as [.json], [.md], [.svelte],
    [.graphql]), [countLines] never reports a comment line: every line
    that is not blank is a code line, also one that starts with a comment
    token. *)
Theorem plain_extension_has_no_comments (content filePath : string) :
  plain_ext (ext_of filePath) = true ->
  comments (countLines content filePath) = 0 /\
  code (countLines content filePath) = nonblank_count (split_LF content).
Proof.
  intros Hext. unfold ext_of in Hext. unfold countLines. cbn [comments code].
  destruct (fold_line_step_plain _ (split_LF content) loop_init Hext) as [-> ->].
  done.
Qed.

Lemma plain_extension_has_no_comments_witness :
  comments (countLines "// not a comment here" "/p/README.md") = 0 /\
  code (countLines "// not a comment here" "/p/README.md")
  = nonblank_count (split_LF "// not a comment here").
Proof.
  apply (plain_extension_has_no_comments "// not a comment here" "/p/README.md").
  reflexivity.
Defined.

(** *** Files without block comments: counting line by line *)

Lemma split_LF_nonempty s : split_LF s <> [].
Proof.
  intros H. pose proof (LineClassifierFacts.length_split_LF s) as Hlen.
  rewrite H in Hlen. discriminate.
Qed.

Lemma split_LF_app a b :
  split_LF (a +:+ String LF b) = split_LF a ++ split_LF b.
Proof.
  induction a as [|c a IH].
  - reflexivity.
  - change (String c a +:+ String LF b) with (String c (a +:+ String LF b)).
    cbn [split_LF]. rewrite IH.
    destruct (Ascii.eqb c LF); [done|].
    destruct (split_LF a) as [|l ls] eqn:Ha; [by destruct (split_LF_nonempty a)|].
    done.
Qed.

Lemma line_step_stateless ext st line :
  isJsLike ext = false -> isCssLike ext = false ->
  let d := line_step ext loop_init line in
  line_step ext st line =
    mkLoop (codeLines st + codeLines d) (commentLines st + commentLines d)
           (blankLines st + blankLines d) (inMultiLineComment st).
Proof.
  intros Hjs Hcss. unfold line_step, loop_init. destruct st as [c m b multi].
  rewrite Hjs, Hcss. simpl.
  repeat case_match; simpl; f_equal; lia.
Qed.

Lemma fold_line_step_stateless ext lines st :
  isJsLike ext = false -> isCssLike ext = false ->
  let d := fold_left (line_step ext) lines loop_init in
  fold_left (line_step ext) lines st =
    mkLoop (codeLines st + codeLines d) (commentLines st + commentLines d)
           (blankLines st + blankLines d) (inMultiLineComment st).
Proof.
  intros Hjs Hcss. revert st. induction lines as [|l lines IH]; intros st.
  - destruct st. simpl. f_equal; lia.
  - cbn [fold_left]. cbv zeta in IH. rewrite (IH (line_step ext st l)).
    rewrite (IH (line_step ext loop_init l)).
    rewrite (line_step_stateless ext st l Hjs Hcss). simpl. f_equal; lia.
Qed.

(** X3. For a file that is neither script-like nor style-sheet-like, lines
    are classified one by one, with no state carried over: the counts of
    two contents joined by a line feed are the sums of the counts of the
    two contents. *)
Theorem countLines_additive_without_block_comments (a b filePath : string) :
  isJsLike (ext_of filePath) = false ->
  isCssLike (ext_of filePath) = false ->
  countLines (a +:+ String LF b) filePath =
  LineStats_add (countLines a filePath) (countLines b filePath).
Proof.
  intros Hjs Hcss. unfold countLines, LineStats_add. cbn [total code comments blank].
  rewrite split_LF_app, fold_left_app, length_app.
  fold (ext_of filePath).
  rewrite (fold_line_step_stateless (ext_of filePath) (split_LF b)
             (fold_left (line_step (ext_of filePath)) (split_LF a) loop_init) Hjs Hcss).
  reflexivity.
Qed.

Lemma countLines_additive_without_block_comments_witness :
  countLines ("<!-- head -->" +:+ String LF "<p>text</p>") "/p/index.html" =
  LineStats_add (countLines "<!-- head -->" "/p/index.html")
                (countLines "<p>text</p>" "/p/index.html").
Proof.
  apply (countLines_additive_without_block_comments
           "<!-- head -->" "<p>text</p>" "/p/index.html");
    reflexivity.
Defined.

(** *** An open block comment *)

Lemma line_step_in_block ext st line :
  isJsLike ext || isCssLike ext = true ->
  inMultiLineComment st = true ->
  includes (trim line) "*/" = false ->
  line_step ext st line =
    if is_blank line
    then mkLoop (codeLines st) (commentLines st) (S (blankLines st)) true
    else mkLoop (codeLines st) (S (commentLines st)) (blankLines st) true.
Proof.
  intros Hext Hmulti Hclose. unfold line_step, is_blank.
  destruct st as [c m b multi]. simpl in Hmulti. subst multi.
  rewrite Hext, Hclose. simpl. done.
Qed.

Lemma fold_line_step_in_block ext lines st :
  isJsLike ext || isCssLike ext = true ->
  inMultiLineComment st = true ->
  Forall (fun l => includes (trim l) "*/" = false) lines ->
  codeLines (fold_left (line_step ext) lines st) = codeLines st /\
  commentLines (fold_left (line_step ext) lines st)
  = commentLines st + nonblank_count lines.
Proof.
  intros Hext Hmulti Hlines. revert st Hmulti.
  induction Hlines as [|l lines Hl _ IH]; intros st Hmulti.
  - simpl. unfold nonblank_count. simpl. lia.
  - cbn [fold_left]. rewrite nonblank_count_cons.
    rewrite (line_step_in_block ext st l Hext Hmulti Hl).
    destruct (is_blank l).
    + edestruct IH as [-> ->]; [reflexivity|]. simpl. lia.
    + edestruct IH as [-> ->]; [reflexivity|]. simpl. lia.
Qed.

(** X4. In a script-like or style-sheet-like file, a block comment that is
    opened on the first line and closed nowhere takes the whole file: no
    line is counted as code, and every line that is not blank is counted
    as a comment. *)
Theorem unclosed_block_comment_takes_the_file
    (content filePath first : string) (rest : list string) :
  isJsLike (ext_of filePath) || isCssLike (ext_of filePath) = true ->
  split_LF content = first :: rest ->
  startsWith (trim first) "/*" = true ->
  Forall (fun l => includes (trim l) "*/" = false) (first :: rest) ->
  code (countLines content filePath) = 0 /\
  comments (countLines content filePath) = nonblank_count (first :: rest).
Proof.
  intros Hext Hsplit Hopen Hclose.
  apply Forall_cons in Hclose as [Hfirst Hrest].
  unfold countLines. cbn [code comments]. rewrite Hsplit. cbn [fold_left].
  fold (ext_of filePath).
  assert (Hne : String.eqb (trim first) "" = false).
  { destruct (trim first); [discriminate Hopen|done]. }
  assert (Hstep : line_step (ext_of filePath) loop_init first = mkLoop 0 1 0 true).
  { unfold line_step, loop_init. rewrite Hne, Hext, Hopen, Hfirst. done. }
  rewrite Hstep, nonblank_count_cons. unfold is_blank at 1. rewrite Hne.
  destruct (fold_line_step_in_block (ext_of filePath) rest (mkLoop 0 1 0 true)
              Hext eq_refl Hrest) as [-> ->].
  done.
Qed.

Lemma unclosed_block_comment_takes_the_file_witness :
  code (countLines ("/* draft" +:+ String LF "let x = 1;") "/p/a.ts") = 0.
Proof.
  apply (unclosed_block_comment_takes_the_file
           ("/* draft" +:+ String LF "let x = 1;") "/p/a.ts"
           "/* draft" ["let x = 1;"]).
  - reflexivity.
  - reflexivity.
  - reflexivity.
  - repeat constructor.
Defined.

End LineCountsFacts.

(** ** More on counting *)

Module WalkFacts.
Import JsString FrameworkCatalog LineClassifier CodeCounter Walk.
Import CodeCounterFacts.

Lemma names_ok_Dir N entries :
  names_ok N (Dir (Ok entries)) <-> entries_ok N entries.
Proof.
  unfold entries_ok. induction entries as [|[entry_name child] es IH].
  - simpl. split; [constructor|done].
  - rewrite Forall_cons. simpl in *. rewrite <- IH. tauto.
Qed.

Lemma names_ok_True n : names_ok (fun _ => True) n.
Proof.
  induction n as [content| |message|entries IH] using node_nested_ind; try done.
  apply names_ok_Dir. unfold entries_ok.
  eapply Forall_impl; [exact IH|]. by intros [? ?].
Qed.

(** *** An invariant of the walk that knows the paths *)

Section WalkInvariant.
Variable framework : option Framework.
Variable N : string -> Prop.
Variable Q : string -> Prop.
Variable P : Stats -> Prop.
Hypothesis Q_descend :
  forall rel name,
    Q rel -> N name -> shouldIgnoreDir name = false ->
    Q (Path.relative_join rel name).
Hypothesis P_file :
  forall dirPath rel name file s,
    Q rel -> N name ->
    shouldIgnoreFile name = false ->
    isCodeFile (Path.join dirPath name) = true ->
    P s ->
    P (processFile framework (Path.join dirPath name)
                   (Path.relative_join rel name) file s).
Hypothesis P_error : forall message s, P s -> P (push_error s message).

Lemma walk_fold_inv_aux dirPath rel entries :
  Forall (fun entry => forall dirPath rel s,
            names_ok N (snd entry) -> Q rel -> P s ->
            P (scanDirectory framework (snd entry) dirPath rel s)) entries ->
  entries_ok N entries -> Q rel ->
  forall s, P s -> P (fold_left (scan_entry framework dirPath rel) entries s).
Proof.
  intros IH Hok HQ. revert Hok.
  induction IH as [|[entry_name child] es Hchild _ IH]; intros Hok s Hs; [done|].
  apply Forall_cons in Hok as [[HN Hc] Hok]. simpl in HN, Hc.
  cbn [fold_left]. apply IH; [done|]. unfold scan_entry.
  destruct child as [file|listing|]; [| |done].
  - destruct (shouldIgnoreFile entry_name) eqn:Hi; [done|].
    destruct (isCodeFile (Path.join dirPath entry_name)) eqn:Hcode; [|done].
    by apply P_file.
  - destruct (shouldIgnoreDir entry_name) eqn:Hi; [done|].
    apply Hchild; [done| |done]. by apply Q_descend.
Qed.

Lemma walk_inv dir :
  forall dirPath rel s,
    names_ok N dir -> Q rel -> P s ->
    P (scanDirectory framework dir dirPath rel s).
Proof.
  induction dir as [content| |message|entries IH] using node_nested_ind;
    intros dirPath rel s Hok HQ Hs; try by apply P_error.
  rewrite count_scanDirectory_Dir.
  apply walk_fold_inv_aux; [done|by apply names_ok_Dir|done|done].
Qed.
End WalkInvariant.

(** The invariant for a property of the files alone. *)
Lemma walk_files_inv framework (P : Stats -> Prop) :
  (forall filePath relativePath file s,
      isCodeFile filePath = true -> P s ->
      P (processFile framework filePath relativePath file s)) ->
  (forall message s, P s -> P (push_error s message)) ->
  forall dir dirPath rel s, P s -> P (scanDirectory framework dir dirPath rel s).
Proof.
  intros Hfile Herr dir dirPath rel s Hs.
  apply (walk_inv framework (fun _ => True) (fun _ => True) P); auto.
  apply names_ok_True.
Qed.

(** *** Totals *)

Ltac unfold_processFile :=
  unfold processFile, push_error;
  cbn [totalFiles totalLines totalCodeLines totalBlankLines totalCommentLines
       fileTypes categories largestFiles errors].

Lemma countLines_counts content filePath :
  code (countLines content filePath) + comments (countLines content filePath)
  + blank (countLines content filePath) = total (countLines content filePath).
Proof.
  unfold countLines. cbn [code comments blank total].
  pose proof (LineClassifierFacts.fold_line_step_counted
                (toLowerCase (Path.extname filePath)) (split_LF content) loop_init) as H.
  unfold counted in H. simpl in H. exact H.
Qed.

Lemma countLines_total_pos content filePath :
  1 <= total (countLines content filePath).
Proof.
  unfold countLines. cbn [total]. rewrite LineClassifierFacts.length_split_LF. lia.
Qed.

Lemma countLines_code_le content filePath :
  code (countLines content filePath) <= total (countLines content filePath).
Proof. pose proof (countLines_counts content filePath). lia. Qed.

(** X5. In the report of a scan with a fresh counter the total of lines is
    the sum of the totals of code lines, comment lines and blank lines. *)
Theorem report_lines_partition
    (framework : option Framework) (project : node) (projectPath : string) :
  let s := summary (scan framework project projectPath new_stats) in
  s_totalLines s = s_totalCodeLines s + s_totalCommentLines s + s_totalBlankLines s.
Proof.
  unfold scan, generateReport. simpl.
  apply (scanDirectory_inv framework
           (fun s => totalLines s =
                     totalCodeLines s + totalCommentLines s + totalBlankLines s)).
  - intros filePath relativePath [content|message] s Hs; unfold_processFile; [|done].
    pose proof (countLines_counts content filePath). lia.
  - done.
  - reflexivity.
Qed.

(** X6. In the report of a scan with a fresh counter there are at least as
    many lines as files, since every file read has at least one line; so
    the total of lines is 0, the case in which the code ratio is reported
    as 0%, exactly when no file was counted. *)
Theorem report_no_lines_iff_no_files
    (framework : option Framework) (project : node) (projectPath : string) :
  let s := summary (scan framework project projectPath new_stats) in
  s_totalFiles s <= s_totalLines s /\
  (s_totalLines s = 0 <-> s_totalFiles s = 0).
Proof.
  unfold scan, generateReport. simpl.
  assert (H : totalFiles (scanDirectory framework project projectPath "" new_stats)
              <= totalLines (scanDirectory framework project projectPath "" new_stats)
              /\ (totalFiles (scanDirectory framework project projectPath "" new_stats) = 0
                  -> totalLines (scanDirectory framework project projectPath "" new_stats) = 0)).
  { apply (scanDirectory_inv framework
             (fun s => totalFiles s <= totalLines s /\
                       (totalFiles s = 0 -> totalLines s = 0))).
    - intros filePath relativePath [content|message] s [Hle Hz];
        unfold_processFile; [|done].
      pose proof (countLines_total_pos content filePath). split; [lia|done].
    - done.
    - split; [reflexivity|done]. }
  destruct H as [Hle Hz]. split; [done|]. split; [lia|done].
Qed.

(** *** Buckets *)

Lemma bucket_sum_insert f key b (buckets : gmap string Bucket.t) :
  buckets !! key = None ->
  bucket_sum f (<[key := b]> buckets) = f b + bucket_sum f buckets.
Proof.
  intros Hnone. unfold bucket_sum.
  rewrite map_fold_insert_L; [done| |done].
  intros; lia.
Qed.

Lemma bucket_sum_add f key lineStats (buckets : gmap string Bucket.t) :
  f Bucket.empty = 0 ->
  let old := default Bucket.empty (buckets !! key) in
  bucket_sum f (add_to_bucket key lineStats buckets) + f old =
  f (Bucket.mk (S (Bucket.count old)) (Bucket.lines old + total lineStats)
               (Bucket.codeLines old + code lineStats))
  + bucket_sum f buckets.
Proof.
  intros Hempty. unfold add_to_bucket.
  destruct (buckets !! key) as [b|] eqn:Hkey; simpl.
  - assert (Hb : bucket_sum f buckets = f b + bucket_sum f (delete key buckets)).
    { rewrite <- (insert_delete_id buckets key b Hkey) at 1.
      apply bucket_sum_insert, lookup_delete_eq. }
    rewrite <- insert_delete_eq, bucket_sum_insert by apply lookup_delete_eq.
    rewrite Hb. lia.
  - rewrite bucket_sum_insert by done. lia.
Qed.

Lemma bucket_lines_add key lineStats (buckets : gmap string Bucket.t) :
  bucket_sum Bucket.lines (add_to_bucket key lineStats buckets)
  = bucket_sum Bucket.lines buckets + total lineStats.
Proof.
  pose proof (bucket_sum_add Bucket.lines key lineStats buckets eq_refl) as H.
  simpl in H. lia.
Qed.

Lemma bucket_codeLines_add key lineStats (buckets : gmap string Bucket.t) :
  bucket_sum Bucket.codeLines (add_to_bucket key lineStats buckets)
  = bucket_sum Bucket.codeLines buckets + code lineStats.
Proof.
  pose proof (bucket_sum_add Bucket.codeLines key lineStats buckets eq_refl) as H.
  simpl in H. lia.
Qed.

(** X7. In the report of a scan with a fresh counter the lines of the
    extension buckets add up to the total of lines and their code lines to
    the total of code lines, and so do those of the category buckets. *)
Theorem report_bucket_lines_add_up
    (framework : option Framework) (project : node) (projectPath : string) :
  let report := scan framework project projectPath new_stats in
  bucket_sum Bucket.lines (r_fileTypes report) = s_totalLines (summary report) /\
  bucket_sum Bucket.codeLines (r_fileTypes report)
  = s_totalCodeLines (summary report) /\
  bucket_sum Bucket.lines (r_categories report) = s_totalLines (summary report) /\
  bucket_sum Bucket.codeLines (r_categories report)
  = s_totalCodeLines (summary report).
Proof.
  unfold scan, generateReport. simpl.
  apply (scanDirectory_inv framework
           (fun s =>
              bucket_sum Bucket.lines (fileTypes s) = totalLines s /\
              bucket_sum Bucket.codeLines (fileTypes s) = totalCodeLines s /\
              bucket_sum Bucket.lines (categories s) = totalLines s /\
              bucket_sum Bucket.codeLines (categories s) = totalCodeLines s)).
  - intros filePath relativePath [content|message] s (H1 & H2 & H3 & H4);
      unfold_processFile; [|done].
    rewrite !bucket_lines_add, !bucket_codeLines_add. lia.
  - done.
  - repeat split; reflexivity.
Qed.

Lemma add_to_bucket_bounds key lineStats (buckets : gmap string Bucket.t) :
  1 <= total lineStats -> code lineStats <= total lineStats ->
  map_Forall (fun _ b => bucket_bounds b) buckets ->
  map_Forall (fun _ b => bucket_bounds b) (add_to_bucket key lineStats buckets).
Proof.
  intros Hpos Hcode Hall. unfold add_to_bucket. apply map_Forall_insert_2; [|done].
  destruct (buckets !! key) as [b|] eqn:Hkey; simpl.
  - destruct (Hall key b Hkey) as (H1 & H2 & H3). unfold bucket_bounds. simpl. lia.
  - unfold bucket_bounds. simpl. lia.
Qed.

(** X8. In the report of a scan with a fresh counter every extension
    bucket and every category bucket holds at least one file, at least as
    many lines as files, and at most as many code lines as lines. *)
Theorem report_buckets_bounded
    (framework : option Framework) (project : node) (projectPath : string) :
  let report := scan framework project projectPath new_stats in
  map_Forall (fun _ b => bucket_bounds b) (r_fileTypes report) /\
  map_Forall (fun _ b => bucket_bounds b) (r_categories report).
Proof.
  unfold scan, generateReport. simpl.
  apply (scanDirectory_inv framework
           (fun s => map_Forall (fun _ b => bucket_bounds b) (fileTypes s) /\
                     map_Forall (fun _ b => bucket_bounds b) (categories s))).
  - intros filePath relativePath [content|message] s [H1 H2];
      unfold_processFile; [|done].
    split; apply add_to_bucket_bounds;
      auto using countLines_total_pos, countLines_code_le.
  - done.
  - split; apply map_Forall_empty.
Qed.

(** *** The keys of the buckets *)

Lemma Array_includes_elem_of l x : Array_includes l x = true -> x ∈ l.
Proof.
  unfold Array_includes. intros (y & Hy & Heq)%existsb_exists.
  apply String.eqb_eq in Heq as ->. by apply list_elem_of_In.
Qed.

Lemma categorizeFile_name framework filePath :
  categorizeFile framework filePath ∈ category_names framework.
Proof.
  unfold categorizeFile, category_names. destruct framework as [fw|]; [|by left].
  destruct (find _ _) as [[category pattern]|] eqn:Hfind; [|by left].
  right. apply find_some in Hfind as [Hin _].
  apply list_elem_of_In in Hin. by apply (list_elem_of_fmap_2 fst) in Hin.
Qed.

(** X9. In the report of a scan every key of the extension buckets, and the
    type of every entry of the list of largest files, is one of the
    recognised code extensions, in lower case; every key of the category
    buckets is a category name of the framework of the counter or
    [other], and [other] alone for a counter without a framework. *)
Theorem report_keys_are_known
    (framework : option Framework) (project : node) (projectPath : string) :
  let report := scan framework project projectPath new_stats in
  map_Forall (fun ext _ => ext ∈ CODE_EXTENSIONS) (r_fileTypes report) /\
  Forall (fun e => FileEntry.type e ∈ CODE_EXTENSIONS) (r_largestFiles report) /\
  map_Forall (fun category _ => category ∈ category_names framework)
             (r_categories report).
Proof.
  unfold scan, generateReport. simpl.
  assert (H : let s := scanDirectory framework project projectPath "" new_stats in
              map_Forall (fun ext _ => ext ∈ CODE_EXTENSIONS) (fileTypes s) /\
              Forall (fun e => FileEntry.type e ∈ CODE_EXTENSIONS) (largestFiles s) /\
              map_Forall (fun category _ => category ∈ category_names framework)
                         (categories s)).
  { apply (walk_files_inv framework
             (fun s =>
                map_Forall (fun ext _ => ext ∈ CODE_EXTENSIONS) (fileTypes s) /\
                Forall (fun e => FileEntry.type e ∈ CODE_EXTENSIONS) (largestFiles s) /\
                map_Forall (fun category _ => category ∈ category_names framework)
                           (categories s))).
    - intros filePath relativePath [content|message] s Hcode (H1 & H2 & H3);
        unfold_processFile; [|done].
      apply Array_includes_elem_of in Hcode.
      assert (Hpushed :
                Forall (fun e => FileEntry.type e ∈ CODE_EXTENSIONS)
                  (largestFiles s ++
                   [FileEntry.mk relativePath (total (countLines content filePath))
                      (code (countLines content filePath)) (String.length content)
                      (toLowerCase (Path.extname filePath))])).
      { apply Forall_app. split; [done|]. by constructor. }
      split; [|split].
      + unfold add_to_bucket. by apply map_Forall_insert_2.
      + case_match; [|done]. apply Forall_take. by rewrite sort_perm.
      + unfold add_to_bucket. apply map_Forall_insert_2; [|done].
        apply categorizeFile_name.
    - done.
    - split; [apply map_Forall_empty|]. split; [constructor|apply map_Forall_empty]. }
  destruct H as (H1 & H2 & H3). split; [done|]. split; [|done].
  by rewrite sort_perm.
Qed.

(** *** Separators in relative paths *)

Lemma append_cons x a b : String x a +:+ b = String x (a +:+ b).
Proof. reflexivity. Qed.

Lemma append_assoc a b c : (a +:+ b) +:+ c = a +:+ (b +:+ c).
Proof. induction a as [|x a IH]; [done|]. rewrite !append_cons. by rewrite IH. Qed.

Lemma no_sep_cons x s : no_sep (String x s) <-> x <> Path.sep /\ no_sep s.
Proof.
  unfold no_sep. cbn [count_char].
  destruct (Ascii.eqb_spec x Path.sep) as [->|Hne]; split; try lia; intuition lia.
Qed.

Lemma prefix_head x p y s :
  String.prefix (String x p) (String y s) = true -> x = y /\ String.prefix p s = true.
Proof. simpl. by destruct (ascii_dec x y). Qed.

Lemma sep_count_snoc w : 1 <= count_char Path.sep (w +:+ "/").
Proof. rewrite count_char_app. simpl. lia. Qed.

(** A segment followed by a separator is a prefix of another segment
    followed by a separator only when the segments are the same. *)
Lemma prefix_segment d : forall s r,
  no_sep d -> no_sep s ->
  String.prefix (d +:+ "/") (s +:+ "/" +:+ r) = true -> d = s.
Proof.
  induction d as [|x d IH]; intros [|y s] r Hd Hs H; [done| | |].
  - rewrite append_cons in H. apply prefix_head in H as [<- _].
    apply no_sep_cons in Hs as [Hs _]. done.
  - rewrite append_cons in H. apply prefix_head in H as [-> _].
    apply no_sep_cons in Hd as [Hd _]. done.
  - rewrite !append_cons in H. apply prefix_head in H as [-> H].
    apply no_sep_cons in Hd as [_ Hd]. apply no_sep_cons in Hs as [_ Hs].
    f_equal. by apply (IH s r).
Qed.

(** A text that starts with a separator does not start inside a segment. *)
Lemma includes_skip_segment s t w :
  no_sep s ->
  includes (s +:+ t) ("/" +:+ w) = true -> includes t ("/" +:+ w) = true.
Proof.
  induction s as [|x s IH]; intros Hs H; [done|].
  apply no_sep_cons in Hs as [Hx Hs]. rewrite append_cons in H.
  cbn [includes] in H. apply orb_true_iff in H as [H|H]; [|by apply IH].
  apply prefix_head in H as [<- _]. done.
Qed.

(** A text that ends with a separator does not end inside the last
    segment. *)
Lemma prefix_within b w : forall a,
  no_sep b ->
  String.prefix (w +:+ "/") (a +:+ b) = true -> String.prefix (w +:+ "/") a = true.
Proof.
  intros a Hb. revert a. induction w as [|z w IH]; intros [|y a] H.
  - apply (prefix_count_char Path.sep) in H.
    pose proof (sep_count_snoc ""). unfold no_sep in Hb.
    change ("" +:+ b) with b in H. lia.
  - change ("" +:+ "/") with (String "/" "") in *.
    rewrite append_cons in H. apply prefix_head in H as [<- _].
    simpl. by destruct a.
  - apply (prefix_count_char Path.sep) in H.
    pose proof (sep_count_snoc (String z w)). unfold no_sep in Hb.
    change ("" +:+ b) with b in H. lia.
  - rewrite !append_cons in H. apply prefix_head in H as [-> H].
    rewrite append_cons. simpl. destruct (ascii_dec y y); [|done]. by apply IH.
Qed.

Lemma includes_within a b w :
  no_sep b ->
  includes (a +:+ b) (w +:+ "/") = true -> includes a (w +:+ "/") = true.
Proof.
  intros Hb. induction a as [|y a IH]; intros H.
  - apply (includes_count_char Path.sep) in H.
    pose proof (sep_count_snoc w). unfold no_sep in Hb.
    change ("" +:+ b) with b in H. lia.
  - rewrite append_cons in H. cbn [includes] in *.
    apply orb_true_iff in H as [H|H]; apply orb_true_iff.
    + left. apply (prefix_within b w (String y a) Hb). by rewrite append_cons.
    + right. by apply IH.
Qed.

Lemma includes_extend a t sub :
  includes t sub = true -> includes (a +:+ t) sub = true.
Proof.
  intros H. induction a as [|x a IH]; [done|].
  rewrite append_cons. cbn [includes]. rewrite IH. apply orb_true_r.
Qed.

Lemma slashed_head segs : exists r, slashed segs = "/" +:+ r.
Proof.
  destruct segs as [|s segs]; [by exists ""|].
  by exists (s +:+ slashed segs).
Qed.

(** A name between two separators of a path is one of its segments. *)
Lemma slashed_includes d segs :
  no_sep d -> Forall no_sep segs ->
  includes (slashed segs) ("/" +:+ d +:+ "/") = true -> d ∈ segs.
Proof.
  intros Hd Hsegs. induction Hsegs as [|s segs Hs _ IH]; intros H.
  - apply (includes_count_char Path.sep) in H.
    rewrite !count_char_app in H. simpl in H. lia.
  - cbn [slashed] in H.
    change ("/" +:+ s +:+ slashed segs) with (String "/" (s +:+ slashed segs)) in H.
    change ("/" +:+ d +:+ "/") with (String "/" (d +:+ "/")) in H.
    cbn [includes] in H. apply orb_true_iff in H as [H|H].
    + apply prefix_head in H as [_ H].
      destruct (slashed_head segs) as [r Hr]. rewrite Hr in H.
      apply prefix_segment in H; [|done..]. subst. by left.
    + right. apply IH.
      by apply (includes_skip_segment s (slashed segs) (d +:+ "/")).
Qed.

Lemma join_segs_snoc segs name :
  segs <> [] -> join_segs (segs ++ [name]) = join_segs segs +:+ "/" +:+ name.
Proof.
  induction segs as [|s segs IH]; [done|]. intros _.
  destruct segs as [|s' segs]; [done|].
  change (join_segs ((s :: s' :: segs) ++ [name]))
    with (s +:+ "/" +:+ join_segs ((s' :: segs) ++ [name])).
  rewrite IH by done.
  change (join_segs (s :: s' :: segs)) with (s +:+ "/" +:+ join_segs (s' :: segs)).
  by rewrite !append_assoc.
Qed.

Lemma slashed_join segs :
  segs <> [] -> slashed segs = "/" +:+ join_segs segs +:+ "/".
Proof.
  induction segs as [|s segs IH]; [done|]. intros _.
  destruct segs as [|s' segs]; [done|].
  change (slashed (s :: s' :: segs)) with ("/" +:+ s +:+ slashed (s' :: segs)).
  rewrite IH by done.
  change (join_segs (s :: s' :: segs)) with (s +:+ "/" +:+ join_segs (s' :: segs)).
  by rewrite !append_assoc.
Qed.

Lemma walked_rel_start : walked_rel "".
Proof. exists []. by split. Qed.

Lemma walked_rel_descend rel name :
  walked_rel rel -> no_sep name -> shouldIgnoreDir name = false ->
  walked_rel (Path.relative_join rel name).
Proof.
  intros (segs & -> & Hsegs) Hname Hign. unfold Path.relative_join.
  destruct (String.eqb_spec (join_segs segs) "") as [Hrel|Hrel].
  - exists [name]. split; [done|]. by constructor.
  - exists (segs ++ [name]). split.
    + rewrite join_segs_snoc; [done|]. by intros ->.
    + apply Forall_app. split; [done|]. by constructor.
Qed.

(** A directory name that a pattern finds in the relative path of a file
    is the name of a directory the walk has entered. *)
Lemma walked_file_segment rel name d :
  walked_rel rel -> no_sep name -> no_sep d ->
  includes (Path.relative_join rel name) ("/" +:+ d +:+ "/") = true ->
  shouldIgnoreDir d = false.
Proof.
  intros (segs & -> & Hsegs) Hname Hd H. unfold Path.relative_join in H.
  destruct (String.eqb_spec (join_segs segs) "") as [Hrel|Hrel].
  - apply (includes_count_char Path.sep) in H.
    rewrite !count_char_app in H. unfold no_sep in Hname. simpl in H. lia.
  - assert (Hne : segs <> []) by (by intros ->).
    rewrite <- append_assoc in H.
    change ("/" +:+ d +:+ "/") with (("/" +:+ d) +:+ "/") in H.
    apply includes_within in H; [|done].
    apply (includes_extend "/") in H.
    change (("/" +:+ d) +:+ "/") with ("/" +:+ d +:+ "/") in H.
    rewrite <- slashed_join in H by done.
    apply slashed_includes in H; [|done|].
    + rewrite Forall_forall in Hsegs. by apply Hsegs.
    + eapply Forall_impl; [exact Hsegs|]. by intros ? [? _].
Qed.

(** *** Categories of ignored directories *)

Lemma ignored_category_alternative fw category pattern alt :
  fw ∈ FRAMEWORKS ->
  (category, pattern) ∈ FrameworkCatalog.categories fw ->
  category ∈ ignored_categories ->
  alt ∈ pattern ->
  shouldIgnoreDir alt = true /\ no_sep alt.
Proof.
  intros Hfw Hcat Hign Halt.
  assert (Hcheck : ignored_categories_check = true) by (vm_compute; reflexivity).
  unfold ignored_categories_check in Hcheck.
  rewrite forallb_forall in Hcheck.
  specialize (Hcheck fw (proj1 (list_elem_of_In _ _) Hfw)).
  rewrite forallb_forall in Hcheck.
  specialize (Hcheck (category, pattern) (proj1 (list_elem_of_In _ _) Hcat)).
  cbn [fst snd] in Hcheck.
  assert (Hin : Array_includes ignored_categories category = true).
  { unfold Array_includes. apply existsb_exists. exists category.
    split; [by apply list_elem_of_In|apply String.eqb_refl]. }
  rewrite Hin in Hcheck. cbn [negb orb] in Hcheck.
  rewrite forallb_forall in Hcheck.
  specialize (Hcheck alt (proj1 (list_elem_of_In _ _) Halt)).
  apply andb_true_iff in Hcheck as [H1 H2]. split; [done|].
  by apply Nat.eqb_eq in H2.
Qed.

Lemma categorizeFile_not_ignored fw rel name :
  fw ∈ FRAMEWORKS -> walked_rel rel -> no_sep name ->
  categorizeFile (Some fw) (Path.relative_join rel name) ∉ ignored_categories.
Proof.
  intros Hfw Hrel Hname Hin. unfold categorizeFile in Hin.
  destruct (find _ _) as [[category pattern]|] eqn:Hfind.
  - apply find_some in Hfind as [Hcat Htest]. cbn [snd] in Htest.
    apply list_elem_of_In in Hcat.
    unfold RegExp_test in Htest. apply existsb_exists in Htest as (alt & Halt & Hinc).
    apply list_elem_of_In in Halt.
    destruct (ignored_category_alternative fw category pattern alt) as [Hign Hsep];
      [done..|].
    apply (walked_file_segment rel name alt) in Hinc; [|done..]. congruence.
  - unfold ignored_categories in Hin.
    repeat (apply elem_of_cons in Hin as [Hin|Hin]; [discriminate|]).
    by apply elem_of_nil in Hin.
Qed.

(** X10. The walk never enters a directory named [public], [static] or
    [assets], so for every framework of the catalogue the report of a scan
    has no bucket for the categories [public], [static] and [assets],
    whose patterns name these directories only: their files are not
    counted at all. *)
Theorem ignored_directory_categories_stay_empty
    (fw : Framework) (project : node) (projectPath : string) :
  fw ∈ FRAMEWORKS ->
  names_ok no_sep project ->
  let report := scan (Some fw) project projectPath new_stats in
  r_categories report !! "public" = None /\
  r_categories report !! "static" = None /\
  r_categories report !! "assets" = None.
Proof.
  intros Hfw Hok. unfold scan, generateReport. simpl.
  assert (H : forall c, c ∈ ignored_categories ->
                categories (scanDirectory (Some fw) project projectPath "" new_stats)
                !! c = None).
  { apply (walk_inv (Some fw) no_sep walked_rel
             (fun s => forall c, c ∈ ignored_categories -> categories s !! c = None)).
    - intros. by apply walked_rel_descend.
    - intros dirPath rel name [content|message] s Hrel Hname _ _ Hs c Hc;
        unfold_processFile; [|by apply Hs].
      unfold add_to_bucket. rewrite lookup_insert_ne; [by apply Hs|].
      intros Heq. apply (categorizeFile_not_ignored fw rel name Hfw Hrel Hname).
      by rewrite Heq.
    - intros message s Hs. exact Hs.
    - done.
    - apply walked_rel_start.
    - intros c _. apply lookup_empty. }
  unfold ignored_categories in H.
  repeat split; apply H; rewrite !elem_of_cons; tauto.
Qed.

Lemma ignored_directory_categories_stay_empty_witness :
  r_categories (scan (Some nextjs) project_with_ignored_dirs "/p" new_stats)
  !! "public" = None.
Proof.
  apply (ignored_directory_categories_stay_empty nextjs project_with_ignored_dirs "/p").
  - left.
  - simpl. repeat split; reflexivity.
Defined.

(** *** Entries the walk passes over *)

(** X11. An entry the walk passes over leaves no trace: a directory whose
    name is ignored or hidden, a file whose name is ignored, hidden or
    minified or whose extension is not a code extension, and an entry
    that is neither file nor directory change neither the counts nor the
    error list, whatever is inside them and even when they cannot be
    read. *)
Theorem passed_over_entry_leaves_no_trace
    (framework : option Framework) (dirPath rel : string)
    (before after : list (string * node)) (entry_name : string) (child : node)
    (s : Stats) :
  (isDirectory child = true /\ shouldIgnoreDir entry_name = true) \/
  (isFile child = true /\
   (shouldIgnoreFile entry_name = true \/
    isCodeFile (Path.join dirPath entry_name) = false)) \/
  child = Special ->
  scanDirectory framework (Dir (Ok (before ++ (entry_name, child) :: after)))
                dirPath rel s
  = scanDirectory framework (Dir (Ok (before ++ after))) dirPath rel s.
Proof.
  intros H. rewrite !count_scanDirectory_Dir, !fold_left_app. cbn [fold_left].
  f_equal. unfold scan_entry.
  destruct H as [[Hdir Hign]|[[Hfile Hign]| ->]]; [| |done].
  - destruct child; try discriminate. by rewrite Hign.
  - destruct child; try discriminate.
    destruct Hign as [->| ->]; [done|]. by rewrite andb_false_r.
Qed.

Lemma passed_over_entry_leaves_no_trace_witness :
  scanDirectory None
    (Dir (Ok ([("a.js", File (Ok "x"))] ++
              ("node_modules", Dir (Err "EACCES: permission denied")) ::
              [("b.min.js", File (Ok "y"))]))) "/p" "" new_stats
  = scanDirectory None
      (Dir (Ok ([("a.js", File (Ok "x"))] ++ [("b.min.js", File (Ok "y"))])))
      "/p" "" new_stats.
Proof.
  apply (passed_over_entry_leaves_no_trace None "/p" ""
           [("a.js", File (Ok "x"))] [("b.min.js", File (Ok "y"))]
           "node_modules" (Dir (Err "EACCES: permission denied")) new_stats).
  left. split; reflexivity.
Defined.

(** *** Directories that cannot be listed *)

(** X12. When a directory of the walk that is not ignored cannot be listed,
    the walk appends one message, naming the directory and the failure,
    to the error list and goes on: it ends with the totals, buckets and
    largest files it has without that directory, and with the error list
    it has without that directory plus that one message. *)
Theorem unreadable_directory_only_adds_error
    (framework : option Framework) (dirPath rel : string)
    (before after : list (string * node)) (entry_name message : string) (s : Stats) :
  shouldIgnoreDir entry_name = false ->
  let line :=
    "Error scanning directory " +:+ Path.join dirPath entry_name +:+ ": " +:+ message in
  let with_dir :=
    scanDirectory framework
      (Dir (Ok (before ++ (entry_name, Dir (Err message)) :: after))) dirPath rel s in
  let without :=
    scanDirectory framework (Dir (Ok (before ++ after))) dirPath rel s in
  aggregates with_dir = aggregates without /\
  exists e1 e2, errors without = e1 ++ e2 /\ errors with_dir = e1 ++ line :: e2.
Proof.
  intros Hdir line with_dir without. subst with_dir without.
  rewrite !count_scanDirectory_Dir, !fold_left_app. cbn [fold_left].
  assert (Hentry : forall st,
            scan_entry framework dirPath rel st (entry_name, Dir (Err message))
            = push_error st line).
  { intros st. unfold scan_entry. by rewrite Hdir. }
  rewrite !Hentry.
  set (s1 := fold_left (scan_entry framework dirPath rel) before s).
  assert (H : one_more_error (errors s1) line (push_error s1 line) s1).
  { split; [done|]. exists []. simpl. by rewrite app_nil_r. }
  apply (fold_rel framework (one_more_error (errors s1) line)) with
    (dirPath := dirPath) (rel := rel) (entries := after) in H.
  - destruct H as [Hagg (e2 & Ha & Hb)].
    split; [exact Hagg|]. exists (errors s1), e2. split; [exact Hb|exact Ha].
  - intros. by apply one_more_error_processFile.
  - intros. by apply one_more_error_push.
Qed.

Lemma unreadable_directory_only_adds_error_witness :
  aggregates
    (scanDirectory None
       (Dir (Ok ([("a.js", File (Ok "x"))] ++
                 ("lib", Dir (Err "EACCES: permission denied")) ::
                 [("c.css", File (Ok "y"))]))) "/p" "" new_stats)
  = aggregates
      (scanDirectory None
         (Dir (Ok ([("a.js", File (Ok "x"))] ++ [("c.css", File (Ok "y"))])))
         "/p" "" new_stats).
Proof.
  apply (unreadable_directory_only_adds_error None "/p" ""
           [("a.js", File (Ok "x"))] [("c.css", File (Ok "y"))]
           "lib" "EACCES: permission denied" new_stats).
  reflexivity.
Defined.

(** *** Reporting twice *)

Lemma sort_sorted_id l :
  StronglySorted more_lines l -> sort_by_lines_desc l = l.
Proof.
  induction 1 as [|x l Hsorted IH Hx]; [done|].
  simpl. rewrite IH. destruct l as [|y l]; [done|].
  simpl. apply Forall_cons in Hx as [Hy _]. unfold more_lines in Hy.
  destruct (Nat.ltb_spec (FileEntry.lines x) (FileEntry.lines y)); [lia|done].
Qed.

(** X13. [generateReport] sorts the list of largest files of the counter in
    place, and sorting a sorted list changes nothing: a second call of
    [generateReport] returns the same report as the first and leaves the
    counter as the first call left it. *)
Theorem generateReport_twice (stats : Stats) :
  generateReport (stats_after_report stats) = generateReport stats /\
  stats_after_report (stats_after_report stats) = stats_after_report stats.
Proof.
  assert (H : sort_by_lines_desc (sort_by_lines_desc (largestFiles stats))
              = sort_by_lines_desc (largestFiles stats)).
  { apply sort_sorted_id, sort_sorted. }
  unfold generateReport, stats_after_report. simpl. rewrite !H. done.
Qed.

(** *** The walk as a fold over its files *)

Lemma walk_files_Dir entries dirPath rel :
  walk_files (Dir (Ok entries)) dirPath rel
  = flat_map (entry_files dirPath rel) entries.
Proof. reflexivity. Qed.

Lemma process_all_app framework files1 files2 s :
  process_all framework (files1 ++ files2) s
  = process_all framework files2 (process_all framework files1 s).
Proof. unfold process_all. apply fold_left_app. Qed.

Lemma aggregates_push_error s message : aggregates (push_error s message) = aggregates s.
Proof. by destruct s. Qed.

Lemma aggregates_process_all framework files : forall s1 s2,
  aggregates s1 = aggregates s2 ->
  aggregates (process_all framework files s1)
  = aggregates (process_all framework files s2).
Proof.
  induction files as [|[[filePath relativePath] file] files IH]; intros s1 s2 H;
    [done|].
  unfold process_all. cbn [fold_left fst snd]. apply IH.
  by apply aggregates_processFile.
Qed.

Lemma walk_is_fold_aux framework dirPath rel entries :
  Forall (fun entry => forall dirPath rel s1 s2,
            aggregates s1 = aggregates s2 ->
            aggregates (scanDirectory framework (snd entry) dirPath rel s1)
            = aggregates (process_all framework
                            (walk_files (snd entry) dirPath rel) s2)) entries ->
  forall s1 s2,
    aggregates s1 = aggregates s2 ->
    aggregates (fold_left (scan_entry framework dirPath rel) entries s1)
    = aggregates (process_all framework
                    (flat_map (entry_files dirPath rel) entries) s2).
Proof.
  induction 1 as [|[entry_name child] es Hchild _ IH]; intros s1 s2 H; [done|].
  cbn [fold_left flat_map]. rewrite process_all_app. apply IH.
  unfold scan_entry, entry_files.
  destruct child as [file|listing|]; [| |done].
  - destruct (negb (shouldIgnoreFile entry_name) &&
              isCodeFile (Path.join dirPath entry_name)); [|done].
    unfold process_all. cbn [fold_left fst snd]. by apply aggregates_processFile.
  - destruct (negb (shouldIgnoreDir entry_name)); [|done].
    by apply Hchild.
Qed.

Lemma walk_is_fold framework dir :
  forall dirPath rel s1 s2,
    aggregates s1 = aggregates s2 ->
    aggregates (scanDirectory framework dir dirPath rel s1)
    = aggregates (process_all framework (walk_files dir dirPath rel) s2).
Proof.
  induction dir as [content| |message|entries IH] using node_nested_ind;
    intros dirPath rel s1 s2 H;
    try (cbn [scanDirectory walk_files]; by rewrite aggregates_push_error).
  rewrite count_scanDirectory_Dir, walk_files_Dir. by apply walk_is_fold_aux.
Qed.

Lemma process_all_totalFiles framework files s :
  totalFiles (process_all framework files s)
  = totalFiles s + length (entries_of files).
Proof.
  revert s. induction files as [|[[filePath relativePath] [content|message]] files IH];
    intros s.
  - simpl. lia.
  - unfold process_all in *. cbn [fold_left fst snd entries_of length].
    rewrite IH. unfold_processFile. lia.
  - unfold process_all in *. cbn [fold_left fst snd entries_of].
    rewrite IH. by unfold_processFile.
Qed.

(** X14. The walk counts the eligible files in the order it meets them,
    depth first and in listing order: its totals, buckets and largest
    files are those of [processFile] applied in turn to the files that
    are not passed over, and [totalFiles] of the report is the number of
    these files that can be read. *)
Theorem walk_counts_its_files
    (framework : option Framework) (project : node) (projectPath : string) :
  aggregates (scanDirectory framework project projectPath "" new_stats)
  = aggregates (process_all framework (walk_files project projectPath "") new_stats) /\
  s_totalFiles (summary (scan framework project projectPath new_stats))
  = length (entries_of (walk_files project projectPath "")).
Proof.
  assert (H : aggregates (scanDirectory framework project projectPath "" new_stats)
              = aggregates (process_all framework
                              (walk_files project projectPath "") new_stats))
    by (by apply walk_is_fold).
  split; [exact H|].
  unfold scan, generateReport. simpl.
  apply (f_equal totalFiles) in H. simpl in H. rewrite H.
  by rewrite process_all_totalFiles.
Qed.

(** *** The largest files are the longest *)

Lemma keeps_longest_push all kept e :
  length kept <= 5 ->
  keeps_longest all kept ->
  let pushed := kept ++ [e] in
  keeps_longest (all ++ [e])
    (if 5 <? length pushed then take 5 (sort_by_lines_desc pushed) else pushed).
Proof.
  intros Hlen (dropped & Hperm & Hord & Hfull) pushed.
  destruct (Nat.ltb_spec 5 (length pushed)) as [Hover|Hroom].
  - (* one entry too many: the sorted list loses its last entry *)
    assert (Hfive : length kept = 5).
    { subst pushed. rewrite length_app in Hover. simpl in Hover. lia. }
    set (sorted := sort_by_lines_desc pushed).
    assert (Hsorted : StronglySorted more_lines (take 5 sorted ++ drop 5 sorted)).
    { rewrite take_drop. apply sort_sorted. }
    assert (Hp : sorted ≡ₚ kept ++ [e]) by apply sort_perm.
    exists (dropped ++ drop 5 sorted). split; [|split].
    + rewrite Hperm. rewrite <- (take_drop 5 sorted) in Hp.
      rewrite <- app_assoc, (Permutation_app_comm dropped [e]), app_assoc, <- Hp.
      rewrite <- !app_assoc. apply Permutation_app_head, Permutation_app_comm.
    + intros d k Hd Hk. apply elem_of_app in Hd as [Hd|Hd].
      * assert (Hk' : k ∈ kept ++ [e]).
        { rewrite <- Hp, <- (take_drop 5 sorted). apply elem_of_app. by left. }
        apply elem_of_app in Hk' as [Hk'|Hk']; [by apply Hord|].
        apply list_elem_of_singleton in Hk'. subst k.
        (* the new entry is kept: what is lost was kept before *)
        apply list_elem_of_split in Hk as (t1 & t2 & Ht).
        assert (Hx : exists x, x ∈ drop 5 sorted).
        { destruct (drop 5 sorted) as [|x xs] eqn:Hdrop; [|exists x; by left].
          apply (f_equal length) in Hdrop. rewrite length_drop in Hdrop.
          unfold sorted in Hdrop. rewrite sort_length in Hdrop. simpl in Hdrop. lia. }
        destruct Hx as [x Hx].
        assert (Hxe : FileEntry.lines x <= FileEntry.lines e).
        { apply (StronglySorted_app_1_elem_of more_lines _ _ e x Hsorted);
            [rewrite Ht; apply elem_of_app; right; by left|done]. }
        assert (Hxk : x ∈ kept).
        { rewrite <- (take_drop 5 sorted), Ht in Hp.
          rewrite <- app_assoc in Hp. cbn [app] in Hp.
          apply Permutation_app_inv in Hp. rewrite app_nil_r in Hp.
          rewrite <- Hp. rewrite !elem_of_app. auto. }
        specialize (Hord d x Hd Hxk). lia.
      * apply (StronglySorted_app_1_elem_of more_lines _ _ k d Hsorted Hk Hd).
    + intros _. rewrite length_take. unfold sorted. rewrite sort_length.
      simpl in Hover. lia.
  - (* room left: nothing was left out so far *)
    assert (Hnil : dropped = []).
    { destruct dropped as [|d ds]; [done|].
      subst pushed. rewrite length_app in Hroom. simpl in Hroom.
      assert (length kept = 5) by (by apply Hfull). lia. }
    subst dropped. exists []. split; [|split].
    + rewrite app_nil_r in *. by rewrite Hperm.
    + intros d k Hd. by apply elem_of_nil in Hd.
    + done.
Qed.

Lemma keeps_longest_process_all framework files : forall all s,
  length (largestFiles s) <= 5 ->
  keeps_longest all (largestFiles s) ->
  keeps_longest (all ++ entries_of files)
                (largestFiles (process_all framework files s)).
Proof.
  induction files as [|[[filePath relativePath] [content|message]] files IH];
    intros all s Hlen Hkeep.
  - simpl. by rewrite app_nil_r.
  - unfold process_all in *. cbn [fold_left fst snd entries_of].
    rewrite (cons_middle _ all), app_assoc. apply IH.
    + by apply processFile_largest.
    + unfold_processFile. by apply keeps_longest_push.
  - unfold process_all in *. cbn [fold_left fst snd entries_of]. by apply IH.
Qed.

Lemma keeps_longest_perm all kept kept' :
  kept ≡ₚ kept' -> keeps_longest all kept -> keeps_longest all kept'.
Proof.
  intros Hp (dropped & Hperm & Hord & Hfull). exists dropped. split; [|split].
  - by rewrite <- Hp.
  - intros d k Hd Hk. apply Hord; [done|]. by rewrite Hp.
  - intros H. rewrite <- Hp. by apply Hfull.
Qed.

(** X15. The list of largest files of a report holds the longest files of
    the walk: the entries of the files that were read are those of the
    list and others, none of the others has more lines than any entry of
    the list, and there are others only when the list has 5 entries. *)
Theorem report_keeps_longest_files
    (framework : option Framework) (project : node) (projectPath : string) :
  keeps_longest (entries_of (walk_files project projectPath ""))
                (r_largestFiles (scan framework project projectPath new_stats)).
Proof.
  unfold scan, generateReport. simpl.
  apply (keeps_longest_perm _
           (largestFiles (scanDirectory framework project projectPath "" new_stats)));
    [by rewrite sort_perm|].
  pose proof (walk_is_fold framework project projectPath "" new_stats new_stats
                eq_refl) as H.
  apply (f_equal largestFiles) in H. simpl in H. rewrite H.
  apply (keeps_longest_process_all framework _ [] new_stats).
  - simpl. lia.
  - exists []. split; [done|]. split; [|done].
    intros d k Hd. by apply elem_of_nil in Hd.
Qed.

(** *** The order of the entries *)

Lemma summary_add_zero_r a : summary_add a summary_zero = a.
Proof. destruct a. unfold summary_add, summary_zero. simpl. f_equal; lia. Qed.

Lemma summary_add_assoc a b c :
  summary_add (summary_add a b) c = summary_add a (summary_add b c).
Proof. unfold summary_add. simpl. f_equal; lia. Qed.

Lemma summary_add_comm a b : summary_add a b = summary_add b a.
Proof. unfold summary_add. f_equal; lia. Qed.

Lemma scan_entry_summary framework dirPath rel s entry :
  summary_of (scan_entry framework dirPath rel s entry)
  = summary_add (summary_of s) (entry_summary framework dirPath rel entry).
Proof.
  unfold entry_summary, scan_entry. destruct entry as [entry_name child].
  assert (Hz : summary_of s = summary_add (summary_of s) (summary_of new_stats))
    by (by rewrite <- (summary_add_zero_r (summary_of s)) at 1).
  destruct child as [file|listing|]; [| |done].
  - destruct (negb (shouldIgnoreFile entry_name) &&
              isCodeFile (Path.join dirPath entry_name)); [|done].
    by apply summary_processFile.
  - destruct (negb (shouldIgnoreDir entry_name)); [|done].
    apply summary_scanDirectory.
Qed.

Lemma fold_summary framework dirPath rel entries : forall s,
  summary_of (fold_left (scan_entry framework dirPath rel) entries s)
  = summary_add (summary_of s)
      (foldr summary_add summary_zero
             (map (entry_summary framework dirPath rel) entries)).
Proof.
  induction entries as [|entry entries IH]; intros s.
  - simpl. by rewrite summary_add_zero_r.
  - cbn [fold_left map foldr]. rewrite IH, scan_entry_summary.
    apply summary_add_assoc.
Qed.

Lemma sum_summaries_perm (l l' : list Summary) :
  l ≡ₚ l' -> foldr summary_add summary_zero l = foldr summary_add summary_zero l'.
Proof.
  induction 1 as [|x l l' _ IH|x y l|l l' l'' _ IH1 _ IH2]; simpl.
  - done.
  - by rewrite IH.
  - rewrite <- !summary_add_assoc. by rewrite (summary_add_comm y x).
  - by rewrite IH1.
Qed.

(** X16. The totals of a directory do not depend on the order in which its
    entries are listed: two listings with the same entries give the same
    totals of files, lines, code lines, blank lines and comment lines. *)
Theorem totals_ignore_listing_order
    (framework : option Framework) (dirPath rel : string)
    (entries entries' : list (string * node)) (s : Stats) :
  entries ≡ₚ entries' ->
  summary_of (scanDirectory framework (Dir (Ok entries)) dirPath rel s)
  = summary_of (scanDirectory framework (Dir (Ok entries')) dirPath rel s).
Proof.
  intros Hp. rewrite !count_scanDirectory_Dir, !fold_summary. f_equal.
  apply sum_summaries_perm. by rewrite Hp.
Qed.

Lemma totals_ignore_listing_order_witness :
  summary_of (scanDirectory None
                (Dir (Ok [("a.js", File (Ok "x")); ("b.css", File (Ok "y"))]))
                "/p" "" new_stats)
  = summary_of (scanDirectory None
                  (Dir (Ok [("b.css", File (Ok "y")); ("a.js", File (Ok "x"))]))
                  "/p" "" new_stats).
Proof.
  apply (totals_ignore_listing_order None "/p" ""
           [("a.js", File (Ok "x")); ("b.css", File (Ok "y"))]
           [("b.css", File (Ok "y")); ("a.js", File (Ok "x"))] new_stats).
  apply Permutation_swap.
Defined.

(** *** Category directories below the top level *)

Lemma prefix_app_self sub t : String.prefix sub (sub +:+ t) = true.
Proof.
  induction sub as [|x sub IH]; [by destruct t|].
  rewrite append_cons. simpl. by destruct (ascii_dec x x).
Qed.

Lemma includes_prefix s sub : String.prefix sub s = true -> includes s sub = true.
Proof. intros H. destruct s; cbn [includes]; by rewrite H. Qed.

(** X24. A file below a category directory that is itself inside another
    directory is categorised: for every framework of the catalogue, a
    relative path that holds a directory name of one of its patterns
    between two separators, such as [src/components/Button.js], gets one
    of the categories of the framework, never [other]. *)
Theorem nested_category_directory_is_categorised
    (fw : Framework) (category : string) (pattern : RegExp)
    (alt parent fileName : string) :
  fw ∈ FRAMEWORKS ->
  (category, pattern) ∈ FrameworkCatalog.categories fw ->
  alt ∈ pattern ->
  let relativePath := parent +:+ "/" +:+ alt +:+ "/" +:+ fileName in
  categorizeFile (Some fw) relativePath <> "other" /\
  categorizeFile (Some fw) relativePath ∈ map fst (FrameworkCatalog.categories fw).
Proof.
  intros Hfw Hcat Halt relativePath.
  assert (Htest : RegExp_test pattern relativePath = true).
  { unfold RegExp_test. apply existsb_exists. exists alt.
    split; [by apply list_elem_of_In|].
    subst relativePath. apply includes_extend, includes_prefix.
    replace ("/" +:+ alt +:+ "/" +:+ fileName)
      with (("/" +:+ alt +:+ "/") +:+ fileName) by (by rewrite !append_assoc).
    apply prefix_app_self. }
  assert (Hcheck : other_is_free_check = true) by (vm_compute; reflexivity).
  unfold other_is_free_check in Hcheck. rewrite forallb_forall in Hcheck.
  specialize (Hcheck fw (proj1 (list_elem_of_In _ _) Hfw)).
  rewrite forallb_forall in Hcheck.
  unfold categorizeFile.
  destruct (find _ _) as [[c p']|] eqn:Hfind.
  - apply find_some in Hfind as [Hin _]. split.
    + specialize (Hcheck (c, p') Hin). cbn [fst] in Hcheck.
      apply negb_true_iff, String.eqb_neq in Hcheck. done.
    + apply list_elem_of_In in Hin. by apply (list_elem_of_fmap_2 fst) in Hin.
  - apply find_none with (x := (category, pattern)) in Hfind;
      [|by apply list_elem_of_In].
    cbn [snd] in Hfind. congruence.
Qed.

Lemma nested_category_directory_is_categorised_witness :
  categorizeFile (Some react) ("src" +:+ "/" +:+ "components" +:+ "/" +:+ "Button.js")
  <> "other".
Proof.
  apply (nested_category_directory_is_categorised react "components"
           ["components"; "ui"] "components" "src" "Button.js").
  - right. right. right. left.
  - left.
  - left.
Defined.

End WalkFacts.

(** ** More on project discovery *)

Module DiscoveryFacts.
Import JsString FrameworkCatalog ProjectScanner Discovery.
Import ProjectScannerFacts.

Section WithJson.
Variable JSON_parse : string -> option PackageJson.

(** *** A scanner used twice *)

Lemma record_project_app dir dirPath ps :
  record_project JSON_parse dir dirPath ps
  = ps ++ record_project JSON_parse dir dirPath [].
Proof. unfold record_project. destruct (detectFramework _ _); by rewrite ?app_nil_r. Qed.

Lemma fold_scan_app_aux dirPath d maxDepth entries :
  Forall (fun entry => forall dirPath d maxDepth ps,
            scanDirectory JSON_parse (snd entry) dirPath d maxDepth ps
            = ps ++ scanDirectory JSON_parse (snd entry) dirPath d maxDepth [])
         entries ->
  forall ps qs,
    fold_left (scan_entry JSON_parse dirPath d maxDepth) entries (ps ++ qs)
    = ps ++ fold_left (scan_entry JSON_parse dirPath d maxDepth) entries qs.
Proof.
  induction 1 as [|[entry_name child] es Hchild _ IH]; intros ps qs; [done|].
  cbn [fold_left].
  assert (Hhead :
            scan_entry JSON_parse dirPath d maxDepth (ps ++ qs) (entry_name, child)
            = ps ++ scan_entry JSON_parse dirPath d maxDepth qs (entry_name, child)).
  { unfold scan_entry. destruct (descends entry_name child); [|done].
    simpl in Hchild. rewrite (Hchild _ _ _ (ps ++ qs)), (Hchild _ _ _ qs).
    by rewrite <- app_assoc. }
  rewrite Hhead. apply IH.
Qed.

Lemma scanDirectory_app dir :
  forall dirPath d maxDepth ps,
    scanDirectory JSON_parse dir dirPath d maxDepth ps
    = ps ++ scanDirectory JSON_parse dir dirPath d maxDepth [].
Proof.
  induction dir as [content| |message|entries IH] using node_nested_ind;
    intros dirPath d maxDepth ps;
    try (rewrite !scanDirectory_not_listed by (by intros ?); by rewrite app_nil_r).
  destruct (decide (d < maxDepth)) as [Hlt|Hge].
  - rewrite !scanDirectory_Dir by done.
    rewrite (record_project_app _ _ ps).
    by apply fold_scan_app_aux.
  - rewrite !scanDirectory_stop by lia. by rewrite app_nil_r.
Qed.

(** X17. A scanner keeps the projects it has found: a scan returns the
    projects the scanner held before it, followed by those a fresh
    scanner finds; so a second scan of an unchanged tree with the same
    scanner returns every project twice. *)
Theorem scanner_accumulates_projects
    (start : node) (startDir : string) (maxDepth : nat) :
  (forall projects,
      scanForProjects JSON_parse start startDir maxDepth projects
      = projects ++ scanForProjects JSON_parse start startDir maxDepth []) /\
  scanForProjects JSON_parse start startDir maxDepth
    (scanForProjects JSON_parse start startDir maxDepth [])
  = scanForProjects JSON_parse start startDir maxDepth []
    ++ scanForProjects JSON_parse start startDir maxDepth [].
Proof.
  split; [intros projects|]; unfold scanForProjects; apply scanDirectory_app.
Qed.

(** *** Deeper scans *)

(** X18. A scan with a larger depth bound finds every project a scan with
    a smaller bound finds. *)
Theorem deeper_scan_finds_more
    (start : node) (startDir : string) (maxDepth maxDepth' : nat) (p : Project) :
  maxDepth <= maxDepth' ->
  p ∈ scanForProjects JSON_parse start startDir maxDepth [] ->
  p ∈ scanForProjects JSON_parse start startDir maxDepth' [].
Proof.
  intros Hle Hp. unfold scanForProjects in Hp.
  apply scan_sound with (start := start) (startDir := startDir) in Hp
    as [Hp|Hp]; [by apply elem_of_nil in Hp| |apply reaches_start].
  destruct Hp as (d & dir & dirPath & fw & Hreach & Hlt & Hfw & ->).
  eapply reaches_records; [exact Hreach|].
  intros ps. apply scan_records; [lia|done].
Qed.

End WithJson.

Lemma deeper_scan_finds_more_witness :
  mkProject "a" "/home/u/a" nextjs
    ∈ scanForProjects (fun _ => None) shallow_tree "/home/u" 5 [].
Proof.
  apply (deeper_scan_finds_more (fun _ => None) shallow_tree "/home/u" 2 5).
  - lia.
  - vm_compute. left.
Defined.

(** *** Ignored names and detection *)

Lemma lookup_entry_remove key before entry_name child after :
  entry_name <> key ->
  lookup_entry key (before ++ (entry_name, child) :: after)
  = lookup_entry key (before ++ after).
Proof.
  intros Hne. induction before as [|[n c] before IH]; simpl.
  - apply String.eqb_neq in Hne. by rewrite Hne.
  - by rewrite IH.
Qed.

Lemma Array_includes_remove x before entry_name (child : node) after :
  x <> entry_name ->
  Array_includes (map fst (before ++ (entry_name, child) :: after)) x
  = Array_includes (map fst (before ++ after)) x.
Proof.
  intros Hne. unfold Array_includes. rewrite !map_app, !existsb_app. simpl.
  apply String.eqb_neq in Hne. by rewrite Hne.
Qed.

Lemma existsb_ext_in {A} (f g : A -> bool) l :
  (forall x, x ∈ l -> f x = g x) -> existsb f l = existsb g l.
Proof.
  induction l as [|x l IH]; intros H; [done|]. simpl.
  rewrite (H x) by left. rewrite IH; [done|]. intros y Hy. apply H. by right.
Qed.

Lemma find_ext_in {A} (f g : A -> bool) l :
  (forall x, x ∈ l -> f x = g x) -> find f l = find g l.
Proof.
  induction l as [|x l IH]; intros H; [done|]. simpl.
  rewrite (H x) by left. rewrite IH; [done|]. intros y Hy. apply H. by right.
Qed.

Lemma detection_names_not_ignored fw :
  fw ∈ FRAMEWORKS ->
  ignored_name "package.json" = false /\
  (forall pattern, pattern ∈ patterns fw ->
                   ignored_name (Path.basename pattern) = false) /\
  (forall dir, dir ∈ directories fw -> ignored_name dir = false).
Proof.
  intros Hfw.
  assert (Hcheck : detection_names_check = true) by (vm_compute; reflexivity).
  unfold detection_names_check in Hcheck.
  apply andb_true_iff in Hcheck as [Hpkg Hcheck].
  rewrite forallb_forall in Hcheck.
  specialize (Hcheck fw (proj1 (list_elem_of_In _ _) Hfw)).
  apply andb_true_iff in Hcheck as [Hpat Hdirs].
  rewrite forallb_forall in Hpat, Hdirs.
  split; [by apply negb_true_iff|]. split.
  - intros pattern Hin. apply negb_true_iff, Hpat. by apply list_elem_of_In.
  - intros dir Hin. apply negb_true_iff, Hdirs. by apply list_elem_of_In.
Qed.

Section WithJsonAgain.
Variable JSON_parse : string -> option PackageJson.

Lemma detectFramework_remove before entry_name child after :
  ignored_name entry_name = true ->
  detectFramework JSON_parse (Dir (Ok (before ++ (entry_name, child) :: after)))
  = detectFramework JSON_parse (Dir (Ok (before ++ after))).
Proof.
  intros Hign. unfold detectFramework.
  assert (Hpj : readPackageJson JSON_parse (before ++ (entry_name, child) :: after)
                = readPackageJson JSON_parse (before ++ after)).
  { unfold readPackageJson. rewrite lookup_entry_remove; [done|].
    intros ->. by vm_compute in Hign. }
  rewrite Hpj. apply find_ext_in. intros fw Hfw.
  destruct (detection_names_not_ignored fw Hfw) as (_ & Hpat & Hdirs).
  f_equal; [f_equal|].
  - unfold hasConfigFile. apply existsb_ext_in. intros pattern Hin.
    apply Array_includes_remove. intros Heq. specialize (Hpat pattern Hin).
    rewrite Heq in Hpat. congruence.
  - unfold hasTypicalDirs. apply existsb_ext_in. intros dir Hin.
    apply Array_includes_remove. intros Heq. specialize (Hdirs dir Hin).
    rewrite Heq in Hdirs. congruence.
Qed.

(** X19. An entry whose name is in the ignore set or starts with a dot is
    invisible to discovery: the scan of a directory that lists it, be it
    a file or a directory with projects inside, gives what the scan gives
    without it, since the scan does not go into it and no name that
    detection looks for is an ignored name. *)
Theorem ignored_entry_is_invisible_to_discovery
    (before after : list (string * node)) (entry_name : string) (child : node)
    (dirPath : string) (d maxDepth : nat) (projects : list Project) :
  ignored_name entry_name = true ->
  scanDirectory JSON_parse (Dir (Ok (before ++ (entry_name, child) :: after)))
                dirPath d maxDepth projects
  = scanDirectory JSON_parse (Dir (Ok (before ++ after))) dirPath d maxDepth projects.
Proof.
  intros Hign. destruct (decide (d < maxDepth)) as [Hlt|Hge].
  - rewrite !scanDirectory_Dir by done. unfold record_project.
    rewrite (detectFramework_remove before entry_name child after Hign).
    rewrite !fold_left_app. cbn [fold_left]. f_equal.
    unfold scan_entry, descends. unfold ignored_name in Hign.
    apply orb_true_iff in Hign as [-> | ->]; by rewrite ?andb_false_r.
  - by rewrite !scanDirectory_stop by lia.
Qed.

Lemma basename_from_segment dir entry_name acc :
  Path.basename_from acc (dir +:+ "/" +:+ entry_name)
  = Path.basename_from "" entry_name.
Proof.
  revert acc. induction dir as [|x dir IH]; intros acc; [done|].
  change (String x dir +:+ "/" +:+ entry_name)
    with (String x (dir +:+ "/" +:+ entry_name)).
  cbn [Path.basename_from]. by destruct (Ascii.eqb x Path.sep).
Qed.

Lemma basename_from_no_sep entry_name : forall acc,
  Walk.no_sep entry_name ->
  Path.basename_from acc entry_name = String.rev_app acc entry_name.
Proof.
  induction entry_name as [|c s IH]; intros acc Hs; [done|].
  unfold Walk.no_sep in *. cbn [count_char] in Hs. cbn [Path.basename_from].
  destruct (Ascii.eqb c Path.sep); [lia|]. rewrite IH by lia. done.
Qed.

Lemma basename_join dir entry_name :
  Walk.no_sep entry_name -> Path.basename (Path.join dir entry_name) = entry_name.
Proof.
  intros Hs. unfold Path.basename, Path.join.
  destruct (String.eqb dir "/").
  - change ("/" +:+ entry_name) with ("" +:+ "/" +:+ entry_name).
    rewrite basename_from_segment. by rewrite basename_from_no_sep.
  - rewrite basename_from_segment. by rewrite basename_from_no_sep.
Qed.

(** X20. A project found below the start directory is named after its
    directory entry: when the start directory is given by a normalised
    absolute path, a matching directory listed under [entry_name], a name
    as [fs.readdir] gives it, in a directory the scan reaches at a
    normalised absolute path, above the depth bound, is recorded with the
    name [entry_name] and the joined path. *)
Theorem subproject_is_named_after_its_entry
    (start : node) (startDir : string) (maxDepth d : nat)
    (entries : list (string * node)) (dirPath entry_name : string)
    (child : node) (fw : Framework) :
  normalised_dir startDir ->
  normalised_dir dirPath ->
  entry_name_ok entry_name ->
  reaches start startDir d (Dir (Ok entries)) dirPath ->
  (entry_name, child) ∈ entries ->
  descends entry_name child = true ->
  S d < maxDepth ->
  detectFramework JSON_parse child = Some fw ->
  mkProject entry_name (Path.join dirPath entry_name) fw
    ∈ scanForProjects JSON_parse start startDir maxDepth [].
Proof.
  intros _ _ (_ & _ & _ & Hsep) Hreach Hin Hdesc Hlt Hfw.
  rewrite <- (basename_join dirPath entry_name Hsep) at 1.
  eapply reaches_records.
  - eapply reaches_entry; [exact Hreach|exact Hin|exact Hdesc].
  - intros ps. by apply scan_records.
Qed.

(** X21. A directory that lists an entry named [src] is never detected as
    React: detection returns the Next.js, the Nuxt.js or the Vue entry of
    the catalogue for it, whatever its [package.json] declares. *)
Theorem src_directory_is_never_react (entries : list (string * node)) :
  "src" ∈ map fst entries ->
  detectFramework JSON_parse (Dir (Ok entries)) <> Some react /\
  detectFramework JSON_parse (Dir (Ok entries)) <> None.
Proof.
  intros Hsrc.
  destruct (src_listed_not_react JSON_parse entries Hsrc) as (fw & -> & Hfw).
  split; [|done]. intros [= ->].
  repeat (apply elem_of_cons in Hfw as [Hfw|Hfw]; [discriminate|]).
  by apply elem_of_nil in Hfw.
Qed.

End WithJsonAgain.

Lemma ignored_entry_is_invisible_to_discovery_witness :
  scanDirectory (fun _ => None)
    (Dir (Ok ([] ++ ("node_modules", Dir (Ok [("pkg", deep_project)])) ::
              [("a", deep_project)]))) "/home/u" 0 3 []
  = scanDirectory (fun _ => None)
      (Dir (Ok ([] ++ [("a", deep_project)]))) "/home/u" 0 3 [].
Proof.
  apply (ignored_entry_is_invisible_to_discovery (fun _ => None)
           [] [("a", deep_project)] "node_modules"
           (Dir (Ok [("pkg", deep_project)])) "/home/u" 0 3 []).
  reflexivity.
Defined.

Lemma subproject_is_named_after_its_entry_witness :
  mkProject "a" (Path.join "/home/u" "a") nextjs
    ∈ scanForProjects (fun _ => None) shallow_tree "/home/u" 3 [].
Proof.
  apply (subproject_is_named_after_its_entry (fun _ => None)
           shallow_tree "/home/u" 3 0 [("a", deep_project)] "/home/u" "a"
           deep_project nextjs).
  - right. exists ["home"; "u"]. split; [discriminate|]. split; [|reflexivity].
    repeat constructor; discriminate.
  - right. exists ["home"; "u"]. split; [discriminate|]. split; [|reflexivity].
    repeat constructor; discriminate.
  - repeat split; discriminate.
  - apply reaches_start.
  - left.
  - reflexivity.
  - lia.
  - reflexivity.
Defined.

Lemma src_directory_is_never_react_witness :
  detectFramework (fun _ => Some (mkPackageJson ["react"; "react-dom"] []))
    (Dir (Ok [("package.json", File (Ok "{}")); ("src", Dir (Ok []))]))
  <> Some react.
Proof.
  apply (src_directory_is_never_react
           (fun _ => Some (mkPackageJson ["react"; "react-dom"] []))
           [("package.json", File (Ok "{}")); ("src", Dir (Ok []))]).
  right. left.
Defined.

End DiscoveryFacts.

(** ** The table of [formatTable] *)

Module TableFormatterFacts.
Import TableFormatter.

Lemma join_cons sep p q rest :
  join sep (p :: q :: rest) = p ++ sep ++ join sep (q :: rest).
Proof. reflexivity. Qed.

Lemma join_length_ext {A} (f g : A -> jstring) sep sep' cols :
  length sep = length sep' ->
  (forall c, c ∈ cols -> length (f c) = length (g c)) ->
  length (join sep (map f cols)) = length (join sep' (map g cols)).
Proof.
  intros Hsep. induction cols as [|c cols IH]; intros H; [done|].
  destruct cols as [|c' cols].
  - simpl. apply H. by left.
  - cbn [map] in *. rewrite !join_cons, !length_app.
    rewrite (H c) by left. rewrite Hsep. rewrite IH; [done|].
    intros x Hx. apply H. by right.
Qed.

Lemma join_lines rows last :
  join [LINE_FEED] (rows ++ [last])
  = concat (map (fun line => line ++ [LINE_FEED]) rows) ++ last.
Proof.
  induction rows as [|r rows IH]; [done|].
  destruct rows as [|r' rows].
  - cbn [app map concat join]. by rewrite app_nil_r, <- app_assoc.
  - change ((r :: r' :: rows) ++ [last]) with (r :: r' :: (rows ++ [last])).
    rewrite join_cons.
    change (r' :: rows ++ [last]) with ((r' :: rows) ++ [last]).
    rewrite IH. cbn [map concat]. by rewrite <- !app_assoc.
Qed.

Lemma fold_lines {A} (line : A -> jstring) data : forall result,
  fold_left (fun result row => result ++ line row ++ [LINE_FEED]) data result
  = result ++ concat (map (fun l => l ++ [LINE_FEED]) (map line data)).
Proof.
  induction data as [|row data IH]; intros result; simpl.
  - by rewrite app_nil_r.
  - rewrite IH. by rewrite <- !app_assoc.
Qed.

Lemma length_padEnd s n : length (padEnd s n) = Nat.max (length s) n.
Proof. unfold padEnd. rewrite length_app, length_replicate. lia. Qed.

Lemma foldr_max_ge base l x : x ∈ l -> x <= foldr Nat.max base l.
Proof.
  induction l as [|y l IH]; intros H; [by apply elem_of_nil in H|].
  apply elem_of_cons in H as [->|H]; simpl; [lia|]. specialize (IH H). lia.
Qed.

Lemma foldr_max_base base l : base <= foldr Nat.max base l.
Proof. induction l as [|y l IH]; simpl; lia. Qed.

Section WithRows.
Variable Row : Type.
Variable Object_keys : Row -> list jstring.
Variable cell_text : Row -> jstring -> jstring.

Lemma colWidth_le data col : colWidth Row cell_text data col <= 30.
Proof. unfold colWidth. lia. Qed.

Lemma colWidth_ge_name data col :
  Nat.min (length col) 30 <= colWidth Row cell_text data col.
Proof.
  unfold colWidth.
  pose proof (foldr_max_base (length col)
                (map (fun row => length (cell_text row col)) data)).
  lia.
Qed.

Lemma colWidth_ge_text data col row :
  row ∈ data ->
  Nat.min (length (cell_text row col)) 30 <= colWidth Row cell_text data col.
Proof.
  intros Hrow. unfold colWidth.
  pose proof (foldr_max_ge (length col)
                (map (fun row => length (cell_text row col)) data)
                (length (cell_text row col))) as H.
  assert (Hin : length (cell_text row col)
                ∈ map (fun row => length (cell_text row col)) data).
  { by apply (list_elem_of_fmap_2 (fun row => length (cell_text row col))). }
  specialize (H Hin). lia.
Qed.

Lemma length_shown_value row col :
  length (shown_value Row cell_text row col)
  = Nat.min (length (cell_text row col)) 30.
Proof.
  unfold shown_value. destruct (Nat.ltb_spec 30 (length (cell_text row col))).
  - rewrite length_app, length_take.
    change (length (of_ascii_string "...")) with 3. lia.
  - lia.
Qed.

Lemma formatTable_lines first rest :
  formatTable Row Object_keys cell_text (first :: rest)
  = join [LINE_FEED] (table_lines Row cell_text (Object_keys first) (first :: rest)).
Proof.
  unfold formatTable, table_lines. cbv zeta.
  set (data := first :: rest). set (columns := Object_keys first).
  rewrite (fold_lines (row_line Row cell_text columns data)).
  change ([?a; ?b; ?c] ++ ?rows ++ [?z]) with (a :: b :: c :: (rows ++ [z])).
  cbn [app]. rewrite !join_cons.
  destruct (map (row_line Row cell_text columns data) data ++
            [border Row cell_text BOTTOM_LEFT BOTTOM_TEE BOTTOM_RIGHT columns data])
    as [|l ls] eqn:Hl.
  { by destruct (map (row_line Row cell_text columns data) data). }
  rewrite join_cons, <- Hl, join_lines. by rewrite <- !app_assoc.
Qed.

Lemma repeat_count_stored data col :
  col <> PROTO ->
  repeat_count Row cell_text data col = colWidth Row cell_text data col + 2.
Proof. intros H. unfold repeat_count. by rewrite bool_decide_eq_false_2. Qed.

Lemma pad_target_stored data col :
  col <> PROTO ->
  pad_target Row cell_text data col = colWidth Row cell_text data col.
Proof. intros H. unfold pad_target. by rewrite bool_decide_eq_false_2. Qed.

(** X22. The table [formatTable] draws for a result set with at least one
    row is its lines joined by line feeds: a top border, the header, a
    separator, one line for every row and a bottom border. When no column
    name has more than 30 characters and no column is named [__proto__],
    all these lines have the same length, so the columns line up. *)
Theorem table_lines_have_one_length (first : Row) (rest : list Row) :
  let data := first :: rest in
  let columns := Object_keys first in
  Forall (fun col => length col <= 30 /\ col <> PROTO) columns ->
  formatTable Row Object_keys cell_text data
  = join [LINE_FEED] (table_lines Row cell_text columns data) /\
  length (table_lines Row cell_text columns data) = length data + 4 /\
  Forall (fun line =>
            length line
            = length (border Row cell_text TOP_LEFT TOP_TEE TOP_RIGHT columns data))
         (table_lines Row cell_text columns data).
Proof.
  intros data columns Hnames.
  split; [apply formatTable_lines|]. split.
  { unfold table_lines. rewrite !length_app, length_map. simpl. lia. }
  assert (Hborder : forall l m r,
            length (border Row cell_text l m r columns data)
            = length (border Row cell_text TOP_LEFT TOP_TEE TOP_RIGHT columns data)).
  { intros l m r. unfold border. rewrite !length_app. simpl. f_equal. f_equal.
    by apply join_length_ext. }
  assert (Hheader :
            length (header_line Row cell_text columns data)
            = length (border Row cell_text TOP_LEFT TOP_TEE TOP_RIGHT columns data)).
  { unfold header_line, border. rewrite !length_app. simpl. f_equal. f_equal.
    apply join_length_ext; [done|]. intros col Hcol.
    cbn [app length]. rewrite length_app, length_padEnd, length_replicate.
    cbn [length].
    rewrite Forall_forall in Hnames. destruct (Hnames col Hcol) as [Hlen Hproto].
    rewrite (repeat_count_stored data col Hproto), (pad_target_stored data col Hproto).
    pose proof (colWidth_ge_name data col). lia. }
  assert (Hrow : forall row, row ∈ data ->
            length (row_line Row cell_text columns data row)
            = length (border Row cell_text TOP_LEFT TOP_TEE TOP_RIGHT columns data)).
  { intros row Hin. unfold row_line, border. rewrite !length_app. simpl.
    f_equal. f_equal. apply join_length_ext; [done|]. intros col Hcol.
    cbn [app length].
    rewrite length_app, length_padEnd, length_replicate, length_shown_value.
    cbn [length].
    rewrite Forall_forall in Hnames. destruct (Hnames col Hcol) as [_ Hproto].
    rewrite (repeat_count_stored data col Hproto), (pad_target_stored data col Hproto).
    pose proof (colWidth_ge_text data col row Hin).
    pose proof (colWidth_le data col). lia. }
  unfold table_lines. apply Forall_app. split; [|apply Forall_app; split].
  - apply Forall_cons. split; [done|]. apply Forall_cons. split; [done|].
    apply Forall_cons. split; [apply Hborder|constructor].
  - apply Forall_forall. intros line (row & -> & Hin)%list_elem_of_fmap.
    by apply Hrow.
  - apply Forall_cons. split; [apply Hborder|constructor].
Qed.

(** X23. In the table of [formatTable] no column other than one named
    [__proto__] is wider than 30 characters: the width the function
    computes for the column is the one its borders and cells are drawn
    with, it is at most 30, and the cell of a row of the result set is
    exactly as wide, a text of more than 30 characters being shown as its
    first 27 characters and three dots. A column name is not cut: the
    header cell of a name of more than 30 characters is wider than its
    column. *)
Theorem table_cells_fit_their_column (data : list Row) (row : Row) (col : jstring) :
  row ∈ data ->
  col <> PROTO ->
  let width := colWidth Row cell_text data col in
  pad_target Row cell_text data col = width /\
  repeat_count Row cell_text data col = width + 2 /\
  width <= 30 /\
  length (padEnd (shown_value Row cell_text row col) (pad_target Row cell_text data col))
  = width /\
  (30 < length (cell_text row col) ->
   shown_value Row cell_text row col
   = take 27 (cell_text row col) ++ of_ascii_string "...") /\
  (30 < length col ->
   width = 30 /\
   length (padEnd col (pad_target Row cell_text data col)) = length col).
Proof.
  intros Hrow Hproto width. subst width.
  pose proof (colWidth_le data col) as Hle.
  pose proof (colWidth_ge_text data col row Hrow) as Hge.
  pose proof (colWidth_ge_name data col) as Hname.
  rewrite (pad_target_stored data col Hproto), (repeat_count_stored data col Hproto).
  split; [done|]. split; [done|].
  split; [done|]. split; [|split].
  - rewrite length_padEnd, length_shown_value. lia.
  - intros Hlong. unfold shown_value.
    destruct (Nat.ltb_spec 30 (length (cell_text row col))); [done|lia].
  - intros Hlong. rewrite length_padEnd. lia.
Qed.

End WithRows.

Lemma table_lines_have_one_length_witness :
  Forall (fun col => length col <= 30 /\ col <> PROTO)
         (example_keys [(of_ascii_string "id", of_ascii_string "1");
                        (of_ascii_string "name", of_ascii_string "Ada")]) /\
  Forall (fun line => length line = 39)
         (table_lines _ example_text
            (example_keys [(of_ascii_string "id", of_ascii_string "1");
                           (of_ascii_string "name", of_ascii_string "Ada")])
            example_rows).
Proof.
  assert (Hnames : Forall (fun col => length col <= 30 /\ col <> PROTO)
                     (example_keys [(of_ascii_string "id", of_ascii_string "1");
                                    (of_ascii_string "name", of_ascii_string "Ada")])).
  { repeat constructor; simpl; try lia; discriminate. }
  split; [exact Hnames|].
  exact (proj2 (proj2 (table_lines_have_one_length _ example_keys example_text
           [(of_ascii_string "id", of_ascii_string "1");
            (of_ascii_string "name", of_ascii_string "Ada")]
           [[(of_ascii_string "id", of_ascii_string "2");
             (of_ascii_string "name",
              of_ascii_string "a name of more than thirty characters")]]
           Hnames))).
Defined.

Lemma table_cells_fit_their_column_witness :
  length (padEnd (shown_value _ example_text
                    [(of_ascii_string "id", of_ascii_string "2");
                     (of_ascii_string "name",
                      of_ascii_string "a name of more than thirty characters")]
                    (of_ascii_string "name"))
                 (pad_target _ example_text example_rows (of_ascii_string "name")))
  = colWidth _ example_text example_rows (of_ascii_string "name").
Proof.
  assert (Hrow : [(of_ascii_string "id", of_ascii_string "2");
                  (of_ascii_string "name",
                   of_ascii_string "a name of more than thirty characters")]
                 ∈ example_rows).
  { right. left. }
  assert (Hproto : of_ascii_string "name" <> PROTO) by discriminate.
  exact (proj1 (proj2 (proj2 (proj2
           (table_cells_fit_their_column _ example_text example_rows _ _
              Hrow Hproto))))).
Defined.

End TableFormatterFacts.

(** ** The choice of a project *)

Module SelectionFacts.
Import ProjectScanner Selection.

Section WithParseInt.
Variable parseInt : string -> option Z.

Lemma ask_elem_of projects answers p :
  ask parseInt projects answers = Some p -> p ∈ projects.
Proof.
  induction answers as [|choice later IH]; [done|]. simpl.
  destruct (parseInt choice) as [n|]; [|done].
  destruct (_ && _)%bool; [|done].
  intros H. by apply list_elem_of_lookup_2 in H.
Qed.

Lemma ask_empty answers : ask parseInt [] answers = None.
Proof.
  induction answers as [|choice later IH]; [done|]. simpl.
  destruct (parseInt choice) as [n|]; [|done].
  destruct (Z.leb_spec 0 (n - 1)); simpl; [|done].
  destruct (Z.ltb_spec (n - 1) (Z.of_nat 0)); [lia|done].
Qed.

Lemma ask_refused projects answer later :
  refused_answer parseInt projects answer ->
  ask parseInt projects (answer :: later) = ask parseInt projects later.
Proof.
  unfold refused_answer. simpl. destruct (parseInt answer) as [n|]; [|done].
  intros Hn.
  destruct (Z.leb_spec 0 (n - 1)); simpl; [|done].
  destruct (Z.ltb_spec (n - 1) (Z.of_nat (length projects))); [lia|done].
Qed.

(** X25. [selectProject] returns only a project of the list it is given,
    whatever the user answers; a single project is returned without a
    question, whatever answers would follow and also when there are none;
    with an empty list it never returns, every answer being refused; and
    an answer that is the number [k] of a project, counted from 1, gives
    the project at that place of the list when every earlier answer was
    refused, being no number or not the number of a project. *)
Theorem selectProject_returns_a_listed_project
    (projects : list Project) (answers : list string) :
  (forall p, selectProject parseInt projects answers = Some p -> p ∈ projects) /\
  (forall p,
      selectProject parseInt [p] answers = Some p /\
      selectProject parseInt [p] [] = Some p) /\
  selectProject parseInt [] answers = None /\
  (forall refused choice later k p,
      Forall (refused_answer parseInt projects) refused ->
      parseInt choice = Some (Z.of_nat (S k)) ->
      projects !! k = Some p ->
      selectProject parseInt projects (refused ++ choice :: later) = Some p).
Proof.
  split; [|split; [|split]].
  - intros p. unfold selectProject.
    destruct projects as [|q [|q' rest]].
    + apply ask_elem_of.
    + intros [= ->]. by left.
    + apply ask_elem_of.
  - intros p. by split.
  - apply ask_empty.
  - intros refused choice later k p Hrefused Hchoice Hk.
    assert (Hask : ask parseInt projects (refused ++ choice :: later) = Some p).
    { induction Hrefused as [|a refused Ha _ IH].
      - simpl. rewrite Hchoice. apply lookup_lt_Some in Hk as Hlt.
        replace (Z.of_nat (S k) - 1)%Z with (Z.of_nat k) by lia.
        destruct (Z.leb_spec 0 (Z.of_nat k)); [|lia].
        destruct (Z.ltb_spec (Z.of_nat k) (Z.of_nat (length projects))); [|lia].
        simpl. by rewrite Nat2Z.id.
      - change ((a :: refused) ++ choice :: later)
          with (a :: (refused ++ choice :: later)).
        by rewrite (ask_refused projects a _ Ha). }
    unfold selectProject. destruct projects as [|q [|q' rest]]; try done.
    destruct k as [|k]; [by injection Hk as ->|done].
Qed.

End WithParseInt.

Lemma selectProject_returns_a_listed_project_witness :
  selectProject example_parseInt
    [mkProject "a" "/w/a" FrameworkCatalog.nextjs;
     mkProject "b" "/w/b" FrameworkCatalog.vue]
    (["two"; "7"; "0"] ++ "2" :: [])
  = Some (mkProject "b" "/w/b" FrameworkCatalog.vue).
Proof.
  apply (proj2 (proj2 (proj2 (selectProject_returns_a_listed_project
                         example_parseInt
                         [mkProject "a" "/w/a" FrameworkCatalog.nextjs;
                          mkProject "b" "/w/b" FrameworkCatalog.vue]
                         (["two"; "7"; "0"] ++ "2" :: []))))
           ["two"; "7"; "0"] "2" [] 1).
  - apply List.Forall_cons; [exact I|].
    apply List.Forall_cons; [right; reflexivity|].
    apply List.Forall_cons; [left; reflexivity|].
    apply List.Forall_nil.
  - reflexivity.
  - reflexivity.
Defined.

End SelectionFacts.

(** ** Worked examples *)

Module Examples.
Import JsString LineClassifier CodeCounter.

(** The four lines [a], empty, [// comment], [b] of a script file. *)
Example classify_script_lines :
  countLines ("a" +:+ String LF (String LF ("// comment" +:+ String LF "b"))) "/p/x.JS"
  = mkLineStats 4 2 1 1.
Proof. vm_compute. reflexivity. Qed.

Example extname_cases :
  Path.extname "/a/b/.gitignore" = "" /\ Path.extname "/a.b/c" = "" /\
  Path.extname "x.min.js" = ".js" /\ Path.extname "/a/.." = "" /\
  Path.basename "src/App.js" = "App.js".
Proof. vm_compute. auto. Qed.

Example trim_case :
  trim (" " +:+ String (ascii_of_nat 9) "/* x " +:+ String (ascii_of_nat 160) "") = "/* x".
Proof. vm_compute. reflexivity. Qed.

Example ignore_cases :
  shouldIgnoreFile "vendor.min.js" = true /\ shouldIgnoreFile "main.js" = false /\
  shouldIgnoreFile ".env" = true /\ shouldIgnoreDir "node_modules" = true /\
  shouldIgnoreDir "src" = false /\ isCodeFile "/p/README.MD" = true /\
  isCodeFile "/p/logo.png" = false.
Proof. vm_compute. auto 10. Qed.

(** Six files of 1 to 6 lines leave the five longest, longest first. *)
Example largest_five :
  map FileEntry.lines
    (r_largestFiles
       (scan None
          (Dir (Ok [("f1.js", File (Ok "a"));
                    ("f2.js", File (Ok ("a" +:+ String LF "b")));
                    ("f3.js", File (Ok ("a" +:+ String LF ("b" +:+ String LF "c"))));
                    ("f4.js", File (Ok (String LF (String LF (String LF "d")))));
                    ("f5.js", File (Ok (String LF (String LF (String LF (String LF "e"))))));
                    ("f6.js", File (Ok (String LF (String LF (String LF (String LF (String LF "f"))))))) ]))
          "/p" new_stats))
  = [6; 5; 4; 3; 2].
Proof. vm_compute. reflexivity. Qed.

End Examples.

Module TableExamples.
Import TableFormatter.

(** A table of two columns and two rows: six lines of 39 characters. *)
Example table_example :
  map length
    (table_lines _ TableFormatter.example_text
       (map TableFormatter.of_ascii_string ["id"; "name"])
       TableFormatter.example_rows)
  = [39; 39; 39; 39; 39; 39] /\
  formatTable _ TableFormatter.example_keys TableFormatter.example_text []
  = TableFormatter.of_ascii_string "No data found.".
Proof. vm_compute. auto. Qed.

(** A column named [__proto__] is drawn without a width: its borders are
    empty and its cells are not padded, so the lines of the table differ
    in length. *)
Example table_proto_example :
  let row := [(of_ascii_string "id", of_ascii_string "1");
              (PROTO, of_ascii_string "abcdef")] in
  map length (table_lines _ TableFormatter.example_text
                (TableFormatter.example_keys row) [row])
  = [7; 18; 7; 15; 7].
Proof. vm_compute. reflexivity. Qed.

End TableExamples.
